(** * csm_web frontend: enrollment and attendance state engine

    A shallow embedding of the decision logic of three React components,

    - [Course.js]         (enrollment window, enroll gating, enroll rejections,
                           weekday grouping of sections),
    - [MentorSection.js]  (weekly attendance cohorts, tab date formatter,
                           default cohort selection),
    - [StudentSection.js] (the [DropSection] confirmation workflow),

    followed by the properties established about them.  JavaScript values
    that the components receive as decoded JSON are kept dynamically typed
    where the code inspects them ad hoc; the remaining data uses records that
    follow the components' prop shapes.  Exceptions are explicit: a function
    that can throw returns a [completion]. *)

From Stdlib Require Import List String Ascii ZArith NArith Lia Bool.
From Stdlib Require Import Sorted Permutation DecimalString.
Import ListNotations.
Local Open Scope string_scope.
Set Warnings "-register-all".

(* ===================================================================== *)
(** * Part I.  The JavaScript fragment the components rely on            *)
(* ===================================================================== *)

Module JS.

(** ** Abrupt completions *)

Inductive exn : Type :=
| ReferenceError (name : string)
| TypeError (what : string).

Inductive completion (A : Type) : Type :=
| Normal (a : A)
| Throw (e : exn).
Arguments Normal {A} a.
Arguments Throw {A} e.

Definition bind {A B : Type} (c : completion A) (k : A -> completion B)
  : completion B :=
  match c with
  | Normal a => k a
  | Throw e => Throw e
  end.

Notation "x <- c ;; k" := (bind c (fun x => k))
  (at level 61, c at next level, right associativity).

(** [Array.prototype.map] with a callback that may throw: elements are
    visited left to right and the first exception aborts the traversal. *)
Fixpoint mapM {A B : Type} (f : A -> completion B) (l : list A)
  : completion (list B) :=
  match l with
  | [] => Normal []
  | x :: r => y <- f x ;; ys <- mapM f r ;; Normal (y :: ys)
  end.

(** ** Numbers

    The numbers that occur (identifiers, capacities, millisecond timestamps,
    comparator results) are integers; the only non-integer that the code can
    produce is [NaN] (an invalid date, or arithmetic on [undefined]). *)

Inductive number : Type :=
| NaN
| Fin (z : Z).

Definition sub (a b : number) : number :=
  match a, b with
  | Fin x, Fin y => Fin (x - y)
  | _, _ => NaN
  end.

(** [a < b] and [a > b]: any comparison with [NaN] is [false]. *)
Definition lt (a b : number) : bool :=
  match a, b with
  | Fin x, Fin y => (x <? y)%Z
  | _, _ => false
  end.

Definition gt (a b : number) : bool := lt b a.

(** ** Values

    Decoded JSON, plus [VOpaque] for the functions, classes and library
    objects that are in scope but whose contents the callbacks never
    inspect. *)

Inductive value : Type :=
| VUndefined
| VNull
| VBool (b : bool)
| VNum (n : Z)
| VStr (s : string)
| VObj (props : list (string * value))
| VArr (elems : list value)
| VOpaque (what : string).

Fixpoint assoc {V : Type} (k : string) (l : list (string * V)) : option V :=
  match l with
  | [] => None
  | (k', v) :: r => if String.eqb k k' then Some v else assoc k r
  end.

(** Property read [v.k].  Reading a property of [undefined] or [null] throws
    a [TypeError]; an absent property reads as [undefined].  The keys read by
    the components ([shortCode], [message], [course], [id]) are neither
    inherited from a prototype nor defined on primitives and arrays, so those
    read as [undefined] as well. *)
Definition get (v : value) (k : string) : completion value :=
  match v with
  | VUndefined => Throw (TypeError ("Cannot read property " ++ k ++ " of undefined"))
  | VNull => Throw (TypeError ("Cannot read property " ++ k ++ " of null"))
  | VObj props =>
      match assoc k props with
      | Some x => Normal x
      | None => Normal VUndefined
      end
  | _ => Normal VUndefined
  end.

(** [ToBoolean]. *)
Definition truthy (v : value) : bool :=
  match v with
  | VUndefined | VNull => false
  | VBool b => b
  | VNum n => negb (n =? 0)%Z
  | VStr s => negb (String.eqb s EmptyString)
  | VObj _ | VArr _ | VOpaque _ => true
  end.

(** [a === b].  Objects and arrays compare by identity; two values decoded
    from JSON, or a decoded value and a literal, are never the same object. *)
Definition strict_equals (a b : value) : bool :=
  match a, b with
  | VUndefined, VUndefined => true
  | VNull, VNull => true
  | VBool x, VBool y => Bool.eqb x y
  | VNum x, VNum y => (x =? y)%Z
  | VStr x, VStr y => String.eqb x y
  | _, _ => false
  end.

(** [Array.prototype.includes] compares with SameValueZero, which differs
    from [===] only on [NaN]; decoded JSON has no [NaN]. *)
Definition includes (l : list value) (x : value) : bool :=
  existsb (fun y => strict_equals y x) l.

(** ** Identifier resolution

    A scope binds names to values; an identifier denotes the first binding
    found along the scope chain (innermost scope first, the global object
    last) and evaluating an identifier that no scope binds throws a
    [ReferenceError]. *)

Definition scope : Type := list (string * value).

Fixpoint resolve (chain : list scope) (x : string) : completion value :=
  match chain with
  | [] => Throw (ReferenceError x)
  | sc :: outer =>
      match assoc x sc with
      | Some v => Normal v
      | None => resolve outer x
      end
  end.

(** ** Stable sorting

    [Array.prototype.sort(comparefn)] is stable, and a comparator result of
    [NaN] counts as [0].  For a consistent comparator the outcome is the
    unique stable sorted arrangement, which insertion from the right
    computes; for an inconsistent one the order is implementation-defined. *)

Section Sort.
Context {A : Type}.
Variable comparefn : A -> A -> number.

(** [x] may stay in front of [y]: the comparator does not say [x > y]. *)
Definition keeps_before (x y : A) : bool :=
  match comparefn x y with
  | Fin v => (v <=? 0)%Z
  | NaN => true
  end.

Fixpoint insert (x : A) (l : list A) : list A :=
  match l with
  | [] => [x]
  | y :: r => if keeps_before x y then x :: y :: r else y :: insert x r
  end.

Fixpoint sort (l : list A) : list A :=
  match l with
  | [] => []
  | x :: r => insert x (sort r)
  end.
End Sort.

(** ** Ordinary objects used as dictionaries

    An object is the list of its own enumerable string-keyed properties in
    creation order, with pairwise distinct keys.  Enumeration
    ([Object.keys], [Object.entries]) lists the array-index keys first, in
    ascending numeric order, then the other keys in creation order. *)

Definition object (V : Type) : Type := list (string * V).

Definition is_digit (c : ascii) : bool :=
  let n := nat_of_ascii c in (48 <=? n)%nat && (n <=? 57)%nat.

Fixpoint digits_value (acc : N) (s : string) : option N :=
  match s with
  | EmptyString => Some acc
  | String c r =>
      if is_digit c
      then digits_value (10 * acc + N.of_nat (nat_of_ascii c - 48))%N r
      else None
  end.

(** A key is an array index when it is the canonical decimal form of an
    integer in [0, 2^32 - 2]. *)
Definition array_index (k : string) : option N :=
  match k with
  | EmptyString => None
  | String c r =>
      if Ascii.eqb c "0" && negb (String.eqb r EmptyString) then None
      else
        match digits_value 0%N k with
        | Some n => if (n <? 4294967295)%N then Some n else None
        | None => None
        end
  end.

Definition index_of_entry {V : Type} (e : string * V) : number :=
  match array_index (fst e) with
  | Some n => Fin (Z.of_N n)
  | None => NaN
  end.

Definition is_index_entry {V : Type} (e : string * V) : bool :=
  match array_index (fst e) with
  | Some _ => true
  | None => false
  end.

Definition Object_entries {V : Type} (o : object V) : list (string * V) :=
  (sort (fun a b => sub (index_of_entry a) (index_of_entry b))
        (filter is_index_entry o)
   ++ filter (fun e => negb (is_index_entry e)) o)%list.

Definition Object_keys {V : Type} (o : object V) : list string :=
  map fst (Object_entries o).

(** ** lodash [groupBy(collection, iteratee)]

    Walks the collection in order; an element whose key is already a
    property of the result is pushed onto that property's array, otherwise a
    new property holding a one-element array is created. *)

Section GroupBy.
Context {A : Type}.
Variable iteratee : A -> string.

Fixpoint push_group (k : string) (x : A) (o : object (list A))
  : object (list A) :=
  match o with
  | [] => [(k, [x])]
  | (k', xs) :: r =>
      if String.eqb k k' then (k', (xs ++ [x])%list) :: r
      else (k', xs) :: push_group k x r
  end.

Fixpoint groupBy_from (result : object (list A)) (collection : list A)
  : object (list A) :=
  match collection with
  | [] => result
  | x :: r => groupBy_from (push_group (iteratee x) x result) r
  end.

Definition groupBy (collection : list A) : object (list A) :=
  groupBy_from [] collection.
End GroupBy.

(** ** Strings

    A string is its sequence of code units; the model covers code units
    below 256. *)

(** [s.split(sep)] for a one-character separator: never empty. *)
Fixpoint split (sep : ascii) (s : string) : list string :=
  match s with
  | EmptyString => [EmptyString]
  | String c r =>
      if Ascii.eqb c sep then EmptyString :: split sep r
      else
        match split sep r with
        | h :: t => String c h :: t
        | [] => [String c EmptyString]
        end
  end.

(** White space and line terminators below 256: TAB, LF, VT, FF, CR, SP and
    NBSP. *)
Definition is_white_space (c : ascii) : bool :=
  let n := nat_of_ascii c in
  ((9 <=? n)%nat && (n <=? 13)%nat) || (n =? 32)%nat || (n =? 160)%nat.

Fixpoint trimStart (s : string) : string :=
  match s with
  | EmptyString => EmptyString
  | String c r => if is_white_space c then trimStart r else s
  end.

Fixpoint trimEnd (s : string) : string :=
  match s with
  | EmptyString => EmptyString
  | String c r =>
      match trimEnd r with
      | EmptyString => if is_white_space c then EmptyString else String c EmptyString
      | r' => String c r'
      end
  end.

Definition trim (s : string) : string := trimEnd (trimStart s).

(** [String(n)] for an integer. *)
Definition number_to_string (n : Z) : string :=
  NilZero.string_of_int (Z.to_int n).

(** [a.join(sep)] for an array of strings. *)
Fixpoint join (sep : string) (a : list string) : string :=
  match a with
  | [] => EmptyString
  | [x] => x
  | x :: r => x ++ sep ++ join sep r
  end.

End JS.

(* ===================================================================== *)
(** * Part II.  Course.js                                                *)
(* ===================================================================== *)

Module Course.
Import JS.

Definition API_TIME_FORMAT : string := "HH:mm:ss".
Definition DISPLAY_TIME_FORMAT : string := "HH:mm A".

Definition dayOfWeek : object Z :=
  [ ("Monday", 0%Z); ("Tuesday", 1%Z); ("Wednesday", 2%Z); ("Thursday", 3%Z);
    ("Friday", 4%Z); ("Saturday", 5%Z); ("Sunday", 6%Z) ].

(** The shapes of the decoded course and section records. *)
Record Spacetime : Type := {
  st_dayOfWeek : string;
  st_startTime : string;
  st_location : string
}.

Record SectionData : Type := {
  id : Z;
  capacity : Z;
  enrolledStudents : Z;
  defaultSpacetime : Spacetime
}.

Record CourseData : Type := {
  course_id : Z;
  course_name : string;
  enrollmentStart : string;
  enrollmentEnd : string
}.

(** [this.state] of the [Course] component. *)
Record State : Type := {
  course : CourseData;
  sections : object (list SectionData);
  enrolled : bool;
  enrollmentOpen : bool;
  viewSection : option Z
}.

Definition constructor (props_course : CourseData) : State :=
  {| course := props_course; sections := []; enrolled := false;
     enrollmentOpen := false; viewSection := None |}.

Definition set_enrollmentOpen (b : bool) (st : State) : State :=
  {| course := course st; sections := sections st; enrolled := enrolled st;
     enrollmentOpen := b; viewSection := viewSection st |}.

Definition set_enrolled (b : bool) (st : State) : State :=
  {| course := course st; sections := sections st; enrolled := b;
     enrollmentOpen := enrollmentOpen st; viewSection := viewSection st |}.

Definition set_sections (o : object (list SectionData)) (st : State) : State :=
  {| course := course st; sections := o; enrolled := enrolled st;
     enrollmentOpen := enrollmentOpen st; viewSection := viewSection st |}.

Definition set_viewSection (v : option Z) (st : State) : State :=
  {| course := course st; sections := sections st; enrolled := enrolled st;
     enrollmentOpen := enrollmentOpen st; viewSection := v |}.

(** [componentDidUpdate], first half: the state written when [props.course]
    changed (the callback then runs [updateCourse]). *)
Definition componentDidUpdate_reset (props_course : CourseData) (st : State)
  : State :=
  {| course := props_course; sections := []; enrolled := false;
     enrollmentOpen := false; viewSection := viewSection st |}.

(** ** [updateCourse] *)

(** [now > enrollmentStart && now < enrollmentEnd]: moments compare through
    [valueOf], their millisecond timestamp ([NaN] for an invalid date). *)
Definition window_open (now enrollmentStart enrollmentEnd : number) : bool :=
  gt now enrollmentStart && lt now enrollmentEnd.

(** The names bound at module level and inside [updateCourse], as seen from
    the continuation that receives the decoded profiles. *)
Definition module_scope : scope :=
  [ ("React", VOpaque "react"); ("Redirect", VOpaque "react-router-dom");
    ("groupBy", VOpaque "lodash"); ("moment", VOpaque "moment");
    ("post", VOpaque "../utils/api"); ("alert_modal", VOpaque "../utils/common");
    ("API_TIME_FORMAT", VStr API_TIME_FORMAT);
    ("DISPLAY_TIME_FORMAT", VStr DISPLAY_TIME_FORMAT);
    ("dayOfWeek", VObj (map (fun e => (fst e, VNum (snd e))) dayOfWeek));
    ("CourseDetail", VOpaque "function"); ("Course", VOpaque "class");
    ("Day", VOpaque "function"); ("SectionEnroll", VOpaque "function") ].

Definition updateCourse_scope : scope :=
  [ ("now", VOpaque "moment"); ("enrollmentStart", VOpaque "moment");
    ("enrollmentEnd", VOpaque "moment") ].

Definition profiles_callback_chain (window : scope) (profiles : list value)
  : list scope :=
  [ [("profiles", VArr profiles)]; updateCourse_scope; module_scope; window ].

Section UpdateCourse.
(** [moment(s).valueOf()] for a timestamp string, and the own properties
    of the global object. *)
Variable moment : string -> number.
Variable window : scope.

Definition updateCourse_window (now : number) (st : State) : State :=
  set_enrollmentOpen
    (window_open now (moment (enrollmentStart (course st)))
                     (moment (enrollmentEnd (course st))))
    st.

(** [profiles.map(profile => profile.course).includes(state.course.id)].
    The receiver of [includes] is evaluated before its argument.  The
    argument starts from the identifier [state] (the component state
    would be [this.state]). *)
Definition profiles_enrolled (profiles : list value) : completion bool :=
  courses <- mapM (fun profile => get profile "course") profiles ;;
  state <- resolve (profiles_callback_chain window profiles) "state" ;;
  state_course <- get state "course" ;;
  state_course_id <- get state_course "id" ;;
  Normal (includes courses state_course_id).

(** The continuation [profiles => this.setState({enrolled: ...})]: when
    its body throws, the promise rejects and no state is written. *)
Definition profiles_then (profiles : list value) (st : State) : State :=
  match profiles_enrolled profiles with
  | Normal b => set_enrolled b st
  | Throw _ => st
  end.

Definition sections_then (fetched : list SectionData) (st : State) : State :=
  set_sections (groupBy (fun s => st_dayOfWeek (defaultSpacetime s)) fetched) st.
End UpdateCourse.

(** The already-enrolled flag in the words of the specification: some
    fetched profile's course equals the current course's id. *)
Definition already_enrolled_spec (profiles : list value) (st : State) : bool :=
  existsb
    (fun profile =>
       match get profile "course" with
       | Normal c => strict_equals c (VNum (course_id (course st)))
       | Throw _ => false
       end)
    profiles.

(** ** [SectionEnroll] *)

Definition available (s : SectionData) : Z := (capacity s - enrolledStudents s)%Z.

Definition pluralized_spot (s : SectionData) : string :=
  if (available s =? 1)%Z then "spot" else "spots".

Definition disabled (props_enrolled props_enrollmentOpen : bool) (s : SectionData)
  : bool :=
  props_enrolled || negb props_enrollmentOpen || (available s =? 0)%Z.

(** What [SectionEnroll] puts on the page. *)
Record SectionEnrollView : Type := {
  view_section : Z;
  view_location : string;
  view_startTime : string;
  view_counts : string;
  view_disabled : bool
}.

(** Effects of the click handler's continuation, in program order. *)
Inductive effect : Type :=
| ConsoleLog (v : value)
| AlertModal (message : string) (onClose : option Z)
| Update.

Definition MSG_ALREADY_ENROLLED : string :=
  "You are already enrolled in this course. You can only enroll in one section per course.".
Definition MSG_NOT_OPEN : string :=
  "This course is not currently open for enrollment.".
Definition MSG_UNKNOWN : string := "An unknown error has occurred.".

(** The [switch (body.shortCode)] of a rejected enroll: the message and the
    lines written to the console. *)
Definition rejection (body : value) : completion (string * list effect) :=
  shortCode <- get body "shortCode" ;;
  if strict_equals shortCode (VStr "already_enrolled") then
    Normal (MSG_ALREADY_ENROLLED, [])
  else if strict_equals shortCode (VStr "course_closed") then
    Normal (MSG_NOT_OPEN, [])
  else if strict_equals shortCode (VStr "section_full") then
    Normal (MSG_NOT_OPEN, [])
  else
    message <- get body "message" ;;
    Normal (MSG_UNKNOWN, [ConsoleLog (VStr MSG_UNKNOWN); ConsoleLog message]).

Section Render.
(** [moment(s, API_TIME_FORMAT)]: its [valueOf] and its
    [format(DISPLAY_TIME_FORMAT)]. *)
Variable moment_time : string -> number.
Variable moment_display : string -> string.

Definition SectionEnroll (props_enrolled props_enrollmentOpen : bool)
           (s : SectionData) : SectionEnrollView :=
  {| view_section := id s;
     view_location := st_location (defaultSpacetime s);
     view_startTime := moment_display (st_startTime (defaultSpacetime s));
     view_counts :=
       number_to_string (enrolledStudents s) ++ "/" ++
       number_to_string (capacity s) ++ " - " ++
       number_to_string (available s) ++ " " ++ pluralized_spot s ++
       " available";
     view_disabled := disabled props_enrolled props_enrollmentOpen s |}.

(** The continuation [body => { ... }] of [handleClick], with [ok] as the
    first continuation left it. *)
Definition handleClick_then (s : SectionData) (ok : bool) (body : value)
  : completion (list effect) :=
  if negb ok then
    r <- rejection body ;;
    Normal (snd r ++ [AlertModal (fst r) None; Update])%list
  else
    Normal
      [ AlertModal
          ("You've successfully enrolled in section " ++
           number_to_string (id s) ++ " at " ++
           st_location (defaultSpacetime s) ++ ", " ++
           moment_display (st_startTime (defaultSpacetime s)))
          (Some (id s));
        Update ].

(** The comparator handed to [sort] in [Day]. *)
Definition startTime_comparator (section1 section2 : SectionData) : number :=
  sub (moment_time (st_startTime (defaultSpacetime section1)))
      (moment_time (st_startTime (defaultSpacetime section2))).

(** [props.sections.sort(...)]: the order in which [Day] lists sections.
    The sort is in place, on the array held in the component state. *)
Definition Day_sections (props_sections : list SectionData) : list SectionData :=
  sort startTime_comparator props_sections.

Definition Day (props_enrolled props_enrollmentOpen : bool)
           (props_sections : list SectionData) : list SectionEnrollView :=
  map (SectionEnroll props_enrolled props_enrollmentOpen)
      (Day_sections props_sections).

(** [dayOfWeek[item[0]]]: [undefined] for a key that is no weekday, which
    makes the difference [NaN]. *)
Definition day_number (day : string) : number :=
  match assoc day dayOfWeek with
  | Some n => Fin n
  | None => NaN
  end.

Definition dayComparator {V : Type} (item1 item2 : string * V) : number :=
  sub (day_number (fst item1)) (day_number (fst item2)).

Definition sorted_days (st : State) : list (string * list SectionData) :=
  sort dayComparator (Object_entries (sections st)).

Inductive Rendered : Type :=
| Redirect (to : string)
| Page (course_label : string) (enrolled_alert not_open_alert : bool)
       (dayHeaders : list string)
       (days : list (string * list SectionEnrollView)).

Definition render (st : State) : Rendered :=
  match viewSection st with
  | Some v => Redirect ("/sections/" ++ number_to_string v)
  | None =>
      Page (course_name (course st)) (enrolled st) (negb (enrollmentOpen st))
           (map fst (sorted_days st))
           (map (fun item =>
                   (fst item, Day (enrolled st) (enrollmentOpen st) (snd item)))
                (sorted_days st))
  end.

(** The component state after a render that shows the page: every day's
    array has been sorted in place by [Day]. *)
Definition sections_after_render (st : State) : object (list SectionData) :=
  match viewSection st with
  | Some _ => sections st
  | None => map (fun item => (fst item, Day_sections (snd item))) (sections st)
  end.

(** The weekday groups as displayed for a fetched list of sections: day
    keys in display order, each with its sections in display order. *)
Definition displayed_days (fetched : list SectionData)
  : list (string * list SectionData) :=
  map (fun item => (fst item, Day_sections (snd item)))
      (sort dayComparator
         (Object_entries
            (groupBy (fun s => st_dayOfWeek (defaultSpacetime s)) fetched))).
End Render.

(** ** The component as a whole *)

(** The callback handed to [alert_modal] runs when the alert is
    acknowledged: [() => props.viewSection(props.section.id)] after a
    successful enroll, which is [id => this.setState({ viewSection: id })]
    of the [Course] component, and [() => {}] after a rejected one. *)
Definition acknowledge (e : effect) (st : State) : State :=
  match e with
  | AlertModal _ (Some section_id) => set_viewSection (Some section_id) st
  | _ => st
  end.

(** Everything that writes the state of a mounted [Course]. *)
Inductive update : Type :=
| WindowEvaluated (now : number)
| ProfilesFetched (profiles : list value)
| SectionsFetched (fetched : list SectionData)
| CourseChanged (props_course : CourseData)
| SectionViewed (section_id : Z).

Section Updates.
Variable moment : string -> number.
Variable window : scope.

Definition apply_update (st : State) (u : update) : State :=
  match u with
  | WindowEvaluated now => updateCourse_window moment now st
  | ProfilesFetched profiles => profiles_then window profiles st
  | SectionsFetched fetched => sections_then fetched st
  | CourseChanged props_course => componentDidUpdate_reset props_course st
  | SectionViewed section_id => set_viewSection (Some section_id) st
  end.

Definition apply_updates (st : State) (us : list update) : State :=
  fold_left apply_update us st.
End Updates.

End Course.

(* ===================================================================== *)
(** * Part III.  MentorSection.js                                        *)
(* ===================================================================== *)

Module MentorSection.
Import JS.

(** The decoded [/sections/{id}/students/] payload. *)
Record AttendanceData : Type := {
  attendance_id : Z;
  weekStart : string;
  presence : string
}.

Record StudentData : Type := {
  name : string;
  email : string;
  id : Z;
  attendances : list AttendanceData
}.

Record StudentRef : Type := {
  ref_name : string;
  ref_id : Z
}.

(** [{ ...attendance, student: { name, id } }]. *)
Record Attendance : Type := {
  record : AttendanceData;
  student : StudentRef
}.

Record Student : Type := {
  s_name : string;
  s_email : string;
  s_id : Z
}.

(** The state held by [MentorSection]. *)
Record State : Type := {
  st_students : list Student;
  st_attendances : object (list Attendance);
  st_loaded : bool
}.


(** [data.flatMap(({name, id, attendances}) => attendances.map(...))]. *)
Definition flat_attendances (data : list StudentData) : list Attendance :=
  flat_map
    (fun s =>
       map (fun a => {| record := a;
                        student := {| ref_name := name s; ref_id := id s |} |})
           (attendances s))
    data.

(** [groupBy(flat.reverse(), attendance => attendance.weekStart)]. *)
Definition group_attendances (flat : list Attendance) : object (list Attendance) :=
  groupBy (fun a => weekStart (record a)) (rev flat).

(** The continuation of the fetch in the effect of [MentorSection]. *)
Definition fetched (data : list StudentData) : State :=
  {| st_students :=
       map (fun s => {| s_name := name s; s_email := email s; s_id := id s |}) data;
     st_attendances := group_attendances (flat_attendances data);
     st_loaded := true |}.

(** ** [parseDate] *)

Definition MONTH_NUMBERS : object Z :=
  [ ("Jan", 1%Z); ("Feb", 2%Z); ("Mar", 3%Z); ("Apr", 4%Z); ("May", 5%Z);
    ("Jun", 6%Z); ("Jul", 7%Z); ("Aug", 8%Z); ("Sep", 9%Z); ("Oct", 10%Z);
    ("Nov", 11%Z); ("Dec", 12%Z) ].

(** [`${MONTH_NUMBERS[month]}`]: the number in decimal, or the text
    [undefined] when the table has no such month.  (Names of
    [Object.prototype] members, which an object literal inherits, are not
    month texts and are left out of the model.) *)
Definition month_text (month : string) : string :=
  match assoc month MONTH_NUMBERS with
  | Some n => number_to_string n
  | None => "undefined"
  end.

(** [const [month, dayAndYear] = dateString.split(".")] takes the first two
    pieces; without a second piece [dayAndYear] is [undefined] and calling
    [split] on it throws. *)
Definition parseDate (dateString : string) : completion string :=
  let pieces := split "." dateString in
  let month := hd EmptyString pieces in
  match tl pieces with
  | [] => Throw (TypeError "Cannot read property split of undefined")
  | dayAndYear :: _ =>
      let day := trim (hd EmptyString (split "," dayAndYear)) in
      Normal (month_text month ++ "/" ++ day)
  end.

(** ** [MentorSectionAttendance] *)

(** [this.state.selectedWeek || (loaded && Object.keys(attendances)[0])],
    where the state holds [null] ([None]) or the key of a clicked tab. *)
Definition selectedWeek (state_selectedWeek : option string) (loaded : bool)
           (attendances : object (list Attendance)) : value :=
  let from_state :=
    match state_selectedWeek with
    | Some k => VStr k
    | None => VNull
    end in
  if truthy from_state then from_state
  else if loaded then
    match Object_keys attendances with
    | k :: _ => VStr k
    | [] => VUndefined
    end
  else VBool false.

Record Tab : Type := {
  tab_key : string;
  tab_active : bool;
  tab_label : string
}.

Record Row : Type := {
  row_key : Z;
  row_student : string;
  row_presence : string;
  row_color : string;
  row_options : list (string * string)
}.

Inductive Rendered : Type :=
| LoadingAttendances
| AttendanceTable (tabs : list Tab) (rows : list Row).

Section Attendance.
(** [ATTENDANCE_LABELS], imported from [./Section]: presence code to
    display label and colour token. *)
Variable ATTENDANCE_LABELS : object (string * string).

Definition render_row (a : Attendance) : completion Row :=
  match assoc (presence (record a)) ATTENDANCE_LABELS with
  | None => Throw (TypeError "Cannot read property 1 of undefined")
  | Some label =>
      Normal {| row_key := attendance_id (record a);
                row_student := ref_name (student a);
                row_presence := presence (record a);
                row_color := "var(--csm-attendance-" ++ snd label ++ ")";
                row_options :=
                  map (fun e => (fst e, fst (snd e)))
                      (Object_entries ATTENDANCE_LABELS) |}
  end.

(** [selectedWeek && attendances[selectedWeek].map(...)]: a falsy
    selection renders no row.  Besides a key, [selectedWeek] only ever
    yields [undefined] or [false]. *)
Definition render_rows (selected : value)
           (attendances : object (list Attendance)) : completion (list Row) :=
  match selected with
  | VStr k =>
      if truthy selected then
        match assoc k attendances with
        | Some records => mapM render_row records
        | None => Throw (TypeError "Cannot read property map of undefined")
        end
      else Normal []
  | _ => Normal []
  end.

Definition render (state_selectedWeek : option string) (loaded : bool)
           (attendances : object (list Attendance)) : completion Rendered :=
  let selected := selectedWeek state_selectedWeek loaded attendances in
  if loaded then
    tabs <- mapM (fun k =>
                    label <- parseDate k ;;
                    Normal {| tab_key := k;
                              tab_active := strict_equals (VStr k) selected;
                              tab_label := label |})
                 (Object_keys attendances) ;;
    rows <- render_rows selected attendances ;;
    Normal (AttendanceTable tabs rows)
  else Normal LoadingAttendances.
End Attendance.

(** ** [MentorSectionRoster] *)

(** The text that [handleCopyEmails] writes to the clipboard:
    [students.map(({ email }) => email).join(" ")]. *)
Definition copied_emails (students : list Student) : string :=
  join " " (map s_email students).

End MentorSection.

(* ===================================================================== *)
(** * Part IV.  StudentSection.js: the drop workflow                     *)
(* ===================================================================== *)

Module StudentSection.
Import JS.

Inductive STAGES : Type := INITIAL | CONFIRM | DROPPED.

Record State : Type := { stage : STAGES }.

Definition constructor : State := {| stage := INITIAL |}.

(** What a click can run. *)
Inductive handler : Type :=
| SetStage (s : STAGES)
| PerformDrop.

Inductive control : Type :=
| DropButton
| ModalOverlay
| ModalCloseChild (index : nat)
| ConfirmButton.

Definition control_eqb (a b : control) : bool :=
  match a, b with
  | DropButton, DropButton => true
  | ModalOverlay, ModalOverlay => true
  | ModalCloseChild i, ModalCloseChild j => Nat.eqb i j
  | ConfirmButton, ConfirmButton => true
  | _, _ => false
  end.

(** A child element of a modal: whether it carries the [modalClose] prop and
    the control, if any, that it puts on the page. *)
Record child : Type := {
  has_modalClose : bool;
  own_control : option (control * handler)
}.

(** [Modal({ children, closeModal })]: the overlay closes the modal, and so
    does a click on a child that has the [modalClose] prop; the children's
    own controls are rendered as they are. *)
Fixpoint Modal_children (i : nat) (children : list child) (closeModal : handler)
  : list (control * handler) :=
  match children with
  | [] => []
  | c :: r =>
      ((if has_modalClose c then [(ModalCloseChild i, closeModal)] else [])
       ++ match own_control c with
          | Some ch => [ch]
          | None => []
          end
       ++ Modal_children (S i) r closeModal)%list
  end.

Definition Modal (children : list child) (closeModal : handler)
  : list (control * handler) :=
  (ModalOverlay, closeModal) :: Modal_children 0 children closeModal.

Inductive Rendered : Type :=
| InfoCard (controls : list (control * handler))
| ModalDialog (controls : list (control * handler))
| RedirectHome.

Definition render (st : State) : Rendered :=
  match stage st with
  | INITIAL => InfoCard [ (DropButton, SetStage CONFIRM) ]
  | CONFIRM =>
      ModalDialog
        (Modal
           [ {| has_modalClose := false; own_control := None |};
             {| has_modalClose := false; own_control := None |};
             {| has_modalClose := false;
                own_control := Some (ConfirmButton, PerformDrop) |} ]
           (SetStage INITIAL))
  | DROPPED => RedirectHome
  end.

Definition controls (r : Rendered) : list (control * handler) :=
  match r with
  | InfoCard cs => cs
  | ModalDialog cs => cs
  | RedirectHome => []
  end.

Fixpoint handler_of (c : control) (cs : list (control * handler)) : option handler :=
  match cs with
  | [] => None
  | (c', h) :: r => if control_eqb c c' then Some h else handler_of c r
  end.

(** Modelled from the spec: [fetchWithMethod] and [HTTP_METHODS] of
    [../utils/api], the state-changing call [patchAction(path, method) ->
    Promise<response>] used by drop ([PATCH /students/{id}/drop]).  A call is
    recorded when it is issued; its promise settles later, as a separate
    event. *)
Record request : Type := {
  path : string;
  method : string
}.

Definition HTTP_METHODS_PATCH : string := "PATCH".

(** The component together with the remote calls issued so far and the
    number of their promises that have not settled yet. *)
Record World : Type := {
  component : State;
  issued : list request;
  pending : nat
}.

Inductive event : Type :=
| Click (c : control)
| Fulfilled
| Rejected.

Section Drop.
Variable profileId : Z.

Definition mount : World :=
  {| component := constructor; issued := []; pending := 0 |}.

(** [performDrop] up to the point where it returns: the call is issued
    and the continuation is attached to its promise. *)
Definition performDrop (w : World) : World :=
  {| component := component w;
     issued :=
       (issued w ++
        [ {| path := "students/" ++ number_to_string profileId ++ "/drop";
             method := HTTP_METHODS_PATCH |} ])%list;
     pending := S (pending w) |}.

Definition run (h : handler) (w : World) : World :=
  match h with
  | SetStage s =>
      {| component := {| stage := s |}; issued := issued w; pending := pending w |}
  | PerformDrop => performDrop w
  end.

(** One event.  A click is possible only on a control that the current
    render shows; a settlement needs a pending promise.  Fulfilment runs
    the continuation [() => this.setState({ stage: DROPPED })]; nothing is
    attached for rejection. *)
Definition step (w : World) (e : event) : option World :=
  match e with
  | Click c =>
      match handler_of c (controls (render (component w))) with
      | Some h => Some (run h w)
      | None => None
      end
  | Fulfilled =>
      match pending w with
      | O => None
      | S n =>
          Some {| component := {| stage := DROPPED |};
                  issued := issued w; pending := n |}
      end
  | Rejected =>
      match pending w with
      | O => None
      | S n =>
          Some {| component := component w; issued := issued w; pending := n |}
      end
  end.

Fixpoint steps (w : World) (es : list event) : option World :=
  match es with
  | [] => Some w
  | e :: r =>
      match step w e with
      | Some w' => steps w' r
      | None => None
      end
  end.

Definition reachable (w : World) : Prop :=
  exists es, steps mount es = Some w.
End Drop.

(** ** [StudentSectionAttendance] *)

(** The fields of a decoded [/students/{id}/attendances] record that the
    table reads. *)
Record StudentAttendance : Type := {
  sa_presence : string;
  sa_date : string
}.

(** The state of the component: [{ attendances: null, loaded: false }]
    until the fetch resolves, [{ attendances, loaded: true }] after. *)
Record AttendanceState : Type := {
  as_attendances : option (list StudentAttendance);
  as_loaded : bool
}.

Definition attendance_initial : AttendanceState :=
  {| as_attendances := None; as_loaded := false |}.

Definition attendance_fetched (attendances : list StudentAttendance)
  : AttendanceState :=
  {| as_attendances := Some attendances; as_loaded := true |}.

Record AttendanceRow : Type := {
  ar_key : string;
  ar_date : string;
  ar_color : string;
  ar_label : string
}.

Section StudentAttendanceTable.
(** [ATTENDANCE_LABELS], imported from [./Section]. *)
Variable ATTENDANCE_LABELS : object (string * string).

(** [const [label, cssSuffix] = ATTENDANCE_LABELS[presence]]: destructuring
    [undefined] throws. *)
Definition attendance_row (a : StudentAttendance) : completion AttendanceRow :=
  match assoc (sa_presence a) ATTENDANCE_LABELS with
  | None => Throw (TypeError "undefined is not iterable")
  | Some entry =>
      Normal {| ar_key := sa_date a;
                ar_date := sa_date a;
                ar_color := "var(--csm-attendance-" ++ snd entry ++ ")";
                ar_label := fst entry |}
  end.

(** [StudentSectionAttendance]: [null] while not loaded, else the table
    rows.  Calling [map] on the initial [null] throws. *)
Definition StudentSectionAttendance (state : AttendanceState)
  : completion (option (list AttendanceRow)) :=
  if negb (as_loaded state) then Normal None
  else
    match as_attendances state with
    | None => Throw (TypeError "Cannot read property map of null")
    | Some attendances =>
        rows <- mapM attendance_row attendances ;;
        Normal (Some rows)
    end.
End StudentAttendanceTable.

End StudentSection.

(* ===================================================================== *)
(** * Part V.  Vocabulary of the properties                              *)
(* ===================================================================== *)

(** Predicates in which the properties are phrased, and sample data on
    which they are exercised.  None of this is part of the components. *)

Module ListTerms.
Import JS.

(** The element [x] has grouping key [k]. *)
Definition has_key {A : Type} (f : A -> string) (k : string) (x : A) : bool :=
  String.eqb (f x) k.

(** A comparator of the form [knum x - knum y]; [key] gives the numeric key
    of the elements on which [knum] is a number. *)
Definition by_key {A : Type} (knum : A -> number) (x y : A) : number :=
  sub (knum x) (knum y).

Definition keyed {A : Type} (knum : A -> number) (key : A -> Z) (x : A) : Prop :=
  knum x = Fin (key x).

Definition key_le {A : Type} (key : A -> Z) (x y : A) : Prop := (key x <= key y)%Z.

Definition key_lt {A : Type} (key : A -> Z) (x y : A) : Prop := (key x < key y)%Z.

(** The keys of [ks] that are not in [seen], each once, at its first
    occurrence; [distinct ks] lists the distinct keys of [ks] in order of
    first occurrence. *)
Fixpoint unseen (seen ks : list string) : list string :=
  match ks with
  | [] => []
  | k :: r =>
      if existsb (String.eqb k) seen then unseen seen r
      else k :: unseen (seen ++ [k]) r
  end.

Definition distinct (ks : list string) : list string := unseen [] ks.

(** [c] occurs in [s]. *)
Fixpoint occurs (c : ascii) (s : string) : bool :=
  match s with
  | EmptyString => false
  | String c' r => Ascii.eqb c' c || occurs c r
  end.

End ListTerms.

Module CourseTerms.
Import JS Course ListTerms.

(** The reason codes that the enroll handler tells apart. *)
Definition recognized (code : value) : bool :=
  strict_equals code (VStr "already_enrolled")
  || strict_equals code (VStr "course_closed")
  || strict_equals code (VStr "section_full").

(** The weekday names in canonical order, Monday first. *)
Definition week : list string := map fst dayOfWeek.

Definition day_index (day : string) : Z :=
  match assoc day dayOfWeek with
  | Some n => n
  | None => 0%Z
  end.

Definition day_of (s : SectionData) : string := st_dayOfWeek (defaultSpacetime s).

Definition on_day (day : string) (fetched : list SectionData) : list SectionData :=
  filter (has_key day_of day) fetched.

(** Earlier in the week. *)
Definition earlier (d1 d2 : string) : Prop := (day_index d1 < day_index d2)%Z.

(** The start time as a number, where it is one. *)
Definition start_ms (moment_time : string -> number) (s : SectionData) : Z :=
  match moment_time (st_startTime (defaultSpacetime s)) with
  | Fin t => t
  | NaN => 0%Z
  end.

Definition valid_start (moment_time : string -> number) (s : SectionData) : Prop :=
  exists t, moment_time (st_startTime (defaultSpacetime s)) = Fin t.

(** A full section: 5 of 5 seats taken. *)
Definition full_section : SectionData :=
  {| id := 11%Z; capacity := 5%Z; enrolledStudents := 5%Z;
     defaultSpacetime :=
       {| st_dayOfWeek := "Monday"; st_startTime := "10:00:00";
          st_location := "Soda 310" |} |}.

Definition cs61a : CourseData :=
  {| course_id := 7%Z; course_name := "CS61A";
     enrollmentStart := "2020-01-20T09:00:00"; enrollmentEnd := "2020-02-01T17:00:00" |}.

Definition open_section : SectionData :=
  {| id := 12%Z; capacity := 5%Z; enrolledStudents := 2%Z;
     defaultSpacetime :=
       {| st_dayOfWeek := "Monday"; st_startTime := "10:00:00";
          st_location := "Soda 310" |} |}.

(** Own properties of the global object of a page that loads the bundle;
    no script defines a global named [state]. *)
Definition page_globals : scope :=
  [ ("window", VOpaque "Window"); ("document", VOpaque "Document");
    ("location", VOpaque "Location"); ("history", VOpaque "History");
    ("navigator", VOpaque "Navigator"); ("console", VOpaque "console");
    ("fetch", VOpaque "function"); ("name", VStr EmptyString); ("status", VStr EmptyString) ].

(** The profiles of a student enrolled in course 7. *)
Definition enrolled_profiles : list value :=
  [ VObj [("id", VNum 31%Z); ("course", VNum 7%Z)] ].

(** A rejection with a reason code that the handler does not know. *)
Definition teapot_body : value :=
  VObj [ ("shortCode", VStr "teapot"); ("message", VStr "I am a teapot");
         ("detail", VStr "retry later") ].

(** Sample data: a clock for three start times and four sections fetched
    in an order that is neither by day nor by time. *)
Definition sample_clock (startTime : string) : number :=
  if String.eqb startTime "09:00:00" then Fin 32400000
  else if String.eqb startTime "10:00:00" then Fin 36000000
  else if String.eqb startTime "14:30:00" then Fin 52200000
  else NaN.

Definition sample_section (i : Z) (day startTime : string) : SectionData :=
  {| id := i; capacity := 5%Z; enrolledStudents := 0%Z;
     defaultSpacetime :=
       {| st_dayOfWeek := day; st_startTime := startTime; st_location := "Soda" |} |}.

Definition sample_sections : list SectionData :=
  [ sample_section 1 "Wednesday" "10:00:00";
    sample_section 2 "Monday" "14:30:00";
    sample_section 3 "Monday" "09:00:00";
    sample_section 4 "Monday" "14:30:00" ].

(** A section that holds one student more than its capacity. *)
Definition sample_overfull : SectionData :=
  {| id := 13%Z; capacity := 5%Z; enrolledStudents := 6%Z;
     defaultSpacetime :=
       {| st_dayOfWeek := "Friday"; st_startTime := "09:00:00";
          st_location := "Cory 540" |} |}.

End CourseTerms.

Module MentorTerms.
Import JS MentorSection ListTerms.

(** The records of week [w] among [flat], in input order. *)
Definition of_week (w : string) (flat : list Attendance) : list Attendance :=
  filter (has_key (fun a => weekStart (record a)) w) flat.

Definition sample (i : Z) (w : string) : Attendance :=
  {| record := {| attendance_id := i; weekStart := w; presence := "PR" |};
     student := {| ref_name := "Ada"; ref_id := 1%Z |} |}.



(** A sample label table, and a sample payload of two students. *)
Definition sample_labels : object (string * string) :=
  [ ("PR", ("Present", "present")); ("UN", ("Unexcused absence", "unexcused")) ].

Definition sample_flat : list Attendance :=
  [ sample 1 "Jan. 6, 2020"; sample 2 "Jan. 13, 2020"; sample 3 "Jan. 6, 2020" ].

Definition sample_data : list StudentData :=
  [ {| name := "Ada"; email := "ada@berkeley.edu"; id := 1%Z;
       attendances :=
         [ {| attendance_id := 1%Z; weekStart := "Jan. 6, 2020"; presence := "PR" |};
           {| attendance_id := 2%Z; weekStart := "Jan. 13, 2020"; presence := "UN" |} ] |};
    {| name := "Bob"; email := "bob@berkeley.edu"; id := 2%Z;
       attendances :=
         [ {| attendance_id := 3%Z; weekStart := "Jan. 6, 2020"; presence := "PR" |} ] |} ].

End MentorTerms.

Module DropTerms.
Import JS StudentSection.

Definition at_stage (s : STAGES) (w : World) : Prop := stage (component w) = s.

(** The world in which the confirmation modal has just been opened. *)
Definition confirming : World :=
  {| component := {| stage := CONFIRM |}; issued := []; pending := 0 |}.

Definition drop_request (profileId : Z) : request :=
  {| path := "students/" ++ number_to_string profileId ++ "/drop";
     method := "PATCH" |}.

(** Every pending promise belongs to an issued call, and the stage is
    [DROPPED] only after a call was issued. *)
Definition consistent (w : World) : Prop :=
  pending w <= List.length (issued w)
  /\ (at_stage DROPPED w -> issued w <> []).

End DropTerms.

(* ===================================================================== *)
(** * Part VI.  Properties                                               *)
(* ===================================================================== *)

(** ** The enrollment window *)

Module WindowFacts.
Import JS Course.

(** C2.  For all timestamps [now], [windowStart], [windowEnd] the window
    evaluation is true exactly when [windowStart < now < windowEnd]; it is
    false at either boundary, and [updateCourse] stores this value. *)
Theorem window_open_strict :
  (forall now windowStart windowEnd : Z,
      window_open (Fin now) (Fin windowStart) (Fin windowEnd) = true
      <-> (windowStart < now < windowEnd)%Z)
  /\ (forall windowStart windowEnd : Z,
         window_open (Fin windowStart) (Fin windowStart) (Fin windowEnd) = false)
  /\ (forall windowStart windowEnd : Z,
         window_open (Fin windowEnd) (Fin windowStart) (Fin windowEnd) = false)
  /\ (forall moment now st,
         enrollmentOpen (updateCourse_window moment now st)
         = window_open now (moment (enrollmentStart (course st)))
                           (moment (enrollmentEnd (course st)))).
Proof.
  unfold window_open, gt, lt.
  split; [| split; [| split]].
  - intros now s e. rewrite andb_true_iff, !Z.ltb_lt. tauto.
  - intros s e. rewrite Z.ltb_irrefl. reflexivity.
  - intros s e. rewrite Z.ltb_irrefl. apply andb_false_r.
  - reflexivity.
Qed.

(** An invalid date on either side closes the window. *)
Lemma window_open_invalid (a b : number) :
  window_open NaN a b = false /\ window_open a NaN b = false
  /\ window_open a b NaN = false.
Proof.
  unfold window_open, gt, lt.
  repeat split; destruct a as [| x], b as [| y]; simpl;
    rewrite ?andb_false_r; reflexivity.
Qed.

End WindowFacts.

(** ** Availability and the enroll button *)

Module EnrollFacts.
Import JS Course CourseTerms.

Lemma disabled_iff (props_enrolled props_enrollmentOpen : bool) (s : SectionData) :
  disabled props_enrolled props_enrollmentOpen s = true
  <-> props_enrolled = true \/ props_enrollmentOpen = false \/ available s = 0%Z.
Proof.
  unfold disabled. rewrite !orb_true_iff, negb_true_iff, Z.eqb_eq. tauto.
Qed.

(** C9.  The displayed availability is [capacity - enrolledStudents], which
    is non-negative whenever [enrolledStudents <= capacity]; the unit word
    is "spot" exactly when the availability is 1 and "spots" otherwise. *)
Theorem availability_display (s : SectionData) :
  available s = (capacity s - enrolledStudents s)%Z
  /\ ((enrolledStudents s <= capacity s)%Z -> (0 <= available s)%Z)
  /\ (pluralized_spot s = "spot" <-> available s = 1%Z)
  /\ (pluralized_spot s = "spots" <-> available s <> 1%Z)
  /\ (forall moment_display e o,
         view_counts (SectionEnroll moment_display e o s)
         = number_to_string (enrolledStudents s) ++ "/" ++
           number_to_string (capacity s) ++ " - " ++
           number_to_string (available s) ++ " " ++ pluralized_spot s ++
           " available").
Proof.
  split; [reflexivity |]. split; [unfold available; lia |].
  assert (V : forall moment_display e o,
             view_counts (SectionEnroll moment_display e o s)
             = number_to_string (enrolledStudents s) ++ "/" ++
               number_to_string (capacity s) ++ " - " ++
               number_to_string (available s) ++ " " ++ pluralized_spot s ++
               " available") by reflexivity.
  unfold pluralized_spot in *.
  destruct (Z.eqb_spec (available s) 1) as [E | E].
  - split; [tauto |]. split; [| exact V].
    split; [discriminate | contradiction].
  - split; [split; [discriminate | contradiction] |].
    split; [tauto | exact V].
Qed.


Lemma availability_display_full :
  available full_section = 0%Z
  /\ pluralized_spot full_section = "spots"
  /\ disabled false true full_section = true.
Proof.
  destruct (availability_display full_section) as (_ & Hnn & _ & Hs & _).
  assert (0 <= available full_section)%Z by (apply Hnn; simpl; lia).
  split; [reflexivity |]. split; [apply Hs; discriminate | reflexivity].
Defined.

(** *** The already-enrolled flag *)

(** Nothing lexically encloses the profiles continuation with a binding of
    [state], so the identifier is looked up on the global object. *)
Lemma state_resolves_globally (window : scope) (profiles : list value) :
  resolve (profiles_callback_chain window profiles) "state"
  = resolve [window] "state".
Proof. reflexivity. Qed.

Lemma mapM_get_course_objects (profiles : list value) :
  Forall (fun p => exists props, p = VObj props) profiles ->
  exists courses, mapM (fun profile => get profile "course") profiles = Normal courses.
Proof.
  induction 1 as [| p r [props ->] _ [cs IH]].
  - exists []. reflexivity.
  - simpl. rewrite IH. simpl.
    destruct (assoc "course" props); eexists; reflexivity.
Qed.

(** With no global named [state], the continuation throws for every list of
    profile objects, and the flag keeps its previous value. *)
Lemma profiles_then_unbound_state (window : scope) (profiles : list value)
      (st : State) :
  assoc "state" window = None ->
  Forall (fun p => exists props, p = VObj props) profiles ->
  profiles_enrolled window profiles = Throw (ReferenceError "state")
  /\ profiles_then window profiles st = st.
Proof.
  intros Hw Hp. destruct (mapM_get_course_objects profiles Hp) as [cs Hcs].
  assert (E : profiles_enrolled window profiles = Throw (ReferenceError "state")).
  { unfold profiles_enrolled. rewrite Hcs. simpl. rewrite Hw. reflexivity. }
  split; [exact E |]. unfold profiles_then. rewrite E. reflexivity.
Qed.


(** C1 (the code departs from the claim).  For a student whose fetched
    profiles contain the current course, the flag described by the claim is
    [true]; the continuation, however, throws on the unbound identifier
    [state], the flag stays [false], and the enroll button of a section
    with free seats in an open course is not disabled. *)
Theorem enrolled_flag_not_set :
  let st := set_enrollmentOpen true (constructor cs61a) in
  let st' := profiles_then page_globals enrolled_profiles st in
  already_enrolled_spec enrolled_profiles st = true
  /\ profiles_enrolled page_globals enrolled_profiles
     = Throw (ReferenceError "state")
  /\ st' = st
  /\ enrolled st' = false
  /\ disabled (enrolled st') (enrollmentOpen st') open_section = false.
Proof. repeat split. Qed.

(** ** Rejected enroll requests *)


(** C3 as stated fails twice: a rejection whose body decodes to [null]
    makes the handler throw, and for an unrecognized code the console
    receives the body's [message] property, not the body. *)
Lemma rejection_not_total_nor_body_logged :
  rejection VNull = Throw (TypeError "Cannot read property shortCode of null")
  /\ rejection teapot_body
     = Normal (MSG_UNKNOWN,
               [ConsoleLog (VStr MSG_UNKNOWN); ConsoleLog (VStr "I am a teapot")])
  /\ ~ (forall body : value,
           exists message log,
             rejection body = Normal (message, log)
             /\ (message = MSG_UNKNOWN -> In (ConsoleLog body) log)).
Proof.
  split; [reflexivity |]. split; [reflexivity |].
  intros H.
  destruct (H teapot_body) as (m & l & E & Hlog).
  vm_compute in E. injection E as <- <-.
  destruct (Hlog eq_refl) as [F | [F | []]]; discriminate F.
Qed.

(** C3 (amended).  For every rejected response whose decoded body is
    neither [null] nor [undefined], the surfaced message is a function of
    [body.shortCode]: the one-section-per-course message for
    [already_enrolled], one and the same not-open message for
    [course_closed] and [section_full], and the unknown-error message for
    anything else, in which case the body's [message] property is written
    to the console; the handler then shows the message and refreshes the
    course without throwing. *)
Theorem rejection_message (body : value) :
  body <> VNull -> body <> VUndefined ->
  exists code,
    get body "shortCode" = Normal code
    /\ (code = VStr "already_enrolled" ->
        rejection body = Normal (MSG_ALREADY_ENROLLED, []))
    /\ (code = VStr "course_closed" \/ code = VStr "section_full" ->
        rejection body = Normal (MSG_NOT_OPEN, []))
    /\ (recognized code = false ->
        exists message,
          get body "message" = Normal message
          /\ rejection body
             = Normal (MSG_UNKNOWN, [ConsoleLog (VStr MSG_UNKNOWN); ConsoleLog message]))
    /\ (forall moment_display s,
          exists message log,
            rejection body = Normal (message, log)
            /\ handleClick_then moment_display s false body
               = Normal (log ++ [AlertModal message None; Update])%list).
Proof.
  intros Hnull Hundef.
  assert (Hget : forall k, exists v, get body k = Normal v).
  { intros k. destruct body; simpl; try (eexists; reflexivity); try congruence.
    destruct (assoc k props); eexists; reflexivity. }
  destruct (Hget "shortCode") as [code Hcode].
  destruct (Hget "message") as [message Hmsg].
  exists code. split; [exact Hcode |].
  assert (R : rejection body
              = if strict_equals code (VStr "already_enrolled")
                then Normal (MSG_ALREADY_ENROLLED, [])
                else if strict_equals code (VStr "course_closed")
                then Normal (MSG_NOT_OPEN, [])
                else if strict_equals code (VStr "section_full")
                then Normal (MSG_NOT_OPEN, [])
                else Normal (MSG_UNKNOWN,
                             [ConsoleLog (VStr MSG_UNKNOWN); ConsoleLog message])).
  { unfold rejection. rewrite Hcode. unfold bind at 1.
    rewrite Hmsg. reflexivity. }
  split; [| split; [| split]].
  - intros ->. exact R.
  - intros [-> | ->]; exact R.
  - unfold recognized. intros Hr.
    apply orb_false_iff in Hr. destruct Hr as [Hr H3].
    apply orb_false_iff in Hr. destruct Hr as [H1 H2].
    rewrite H1, H2, H3 in R. exists message. split; [exact Hmsg | exact R].
  - intros moment_display s. unfold handleClick_then. simpl negb. cbv iota.
    rewrite R.
    destruct (strict_equals code (VStr "already_enrolled"));
      [do 2 eexists; split; reflexivity |].
    destruct (strict_equals code (VStr "course_closed"));
      [do 2 eexists; split; reflexivity |].
    destruct (strict_equals code (VStr "section_full"));
      do 2 eexists; split; reflexivity.
Qed.

Lemma rejection_message_section_full :
  exists code,
    get (VObj [("shortCode", VStr "section_full")]) "shortCode" = Normal code
    /\ rejection (VObj [("shortCode", VStr "section_full")])
       = Normal (MSG_NOT_OPEN, []).
Proof.
  destruct (rejection_message (VObj [("shortCode", VStr "section_full")]))
    as (code & Hc & _ & Hfull & _); [discriminate | discriminate |].
  exists code. split; [exact Hc |].
  apply Hfull. right. simpl in Hc. injection Hc as <-. reflexivity.
Defined.

End EnrollFacts.

(** ** Facts about the JavaScript fragment *)

Module JSFacts.
Import JS ListTerms.

Lemma assoc_in_keys {V : Type} (k : string) (o : object V) :
  assoc k o <> None <-> In k (map fst o).
Proof.
  induction o as [| [k' v] r IH]; simpl.
  - tauto.
  - destruct (String.eqb_spec k k') as [-> | Hne].
    + split; [auto | discriminate].
    + rewrite IH. split; [auto | intros [E | H]; [congruence | exact H]].
Qed.

Lemma assoc_of_in {V : Type} (k : string) (v : V) (o : object V) :
  NoDup (map fst o) -> In (k, v) o -> assoc k o = Some v.
Proof.
  induction o as [| [k' v'] r IH]; simpl; intros Hnd Hin; [contradiction |].
  inversion Hnd as [| ? ? Hnotin Hnd']; subst.
  destruct Hin as [E | Hin].
  - injection E as -> ->. rewrite String.eqb_refl. reflexivity.
  - destruct (String.eqb_spec k k') as [-> | Hne].
    + exfalso. apply Hnotin. apply (in_map fst) in Hin. exact Hin.
    + apply IH; assumption.
Qed.

(** *** [groupBy] *)

Section GroupByFacts.
Context {A : Type}.
Variable f : A -> string.

Lemma assoc_push_group (k k' : string) (x : A) (o : object (list A)) :
  assoc k (push_group k' x o)
  = if String.eqb k k'
    then Some (match assoc k o with Some xs => xs | None => [] end ++ [x])%list
    else assoc k o.
Proof.
  induction o as [| [k0 xs] r IH]; simpl.
  - destruct (String.eqb k k'); reflexivity.
  - destruct (String.eqb_spec k' k0) as [-> | Hne]; simpl.
    + destruct (String.eqb k k0); reflexivity.
    + rewrite IH. destruct (String.eqb_spec k k') as [-> | Hne'].
      * destruct (String.eqb_spec k' k0); [contradiction | reflexivity].
      * reflexivity.
Qed.

Lemma keys_push_group (k : string) (x : A) (o : object (list A)) :
  forall k', In k' (map fst (push_group k x o)) <-> k' = k \/ In k' (map fst o).
Proof.
  induction o as [| [k0 xs] r IH]; simpl; intros k'.
  - intuition congruence.
  - destruct (String.eqb_spec k k0) as [-> | Hne]; simpl.
    + intuition congruence.
    + rewrite IH. intuition congruence.
Qed.

Lemma NoDup_push_group (k : string) (x : A) (o : object (list A)) :
  NoDup (map fst o) -> NoDup (map fst (push_group k x o)).
Proof.
  induction o as [| [k0 xs] r IH]; simpl; intros Hnd.
  - constructor; [intros [] | constructor].
  - destruct (String.eqb_spec k k0) as [-> | Hne]; simpl; [exact Hnd |].
    inversion Hnd as [| ? ? Hnotin Hnd']; subst.
    constructor; [| apply IH; exact Hnd'].
    rewrite keys_push_group. intros [E | H]; [congruence | contradiction].
Qed.



Lemma assoc_groupBy_from (k : string) (l : list A) :
  forall o,
    assoc k (groupBy_from f o l)
    = match filter (has_key f k) l with
      | [] => assoc k o
      | g => Some (match assoc k o with Some xs => xs | None => [] end ++ g)%list
      end.
Proof.
  unfold has_key.
  induction l as [| x r IH]; intros o; simpl; [reflexivity |].
  rewrite IH, assoc_push_group. rewrite (String.eqb_sym (f x) k).
  destruct (String.eqb k (f x)).
  - destruct (filter (fun y => String.eqb (f y) k) r) as [| y g].
    + reflexivity.
    + rewrite <- app_assoc. reflexivity.
  - reflexivity.
Qed.

(** The property named [k] of the grouping holds the elements with key
    [k], in collection order; it exists exactly when there is one. *)
Lemma assoc_groupBy (k : string) (l : list A) :
  assoc k (groupBy f l)
  = match filter (has_key f k) l with
    | [] => None
    | g => Some g
    end.
Proof.
  unfold groupBy. rewrite assoc_groupBy_from. reflexivity.
Qed.

Lemma NoDup_groupBy_from (l : list A) :
  forall o, NoDup (map fst o) -> NoDup (map fst (groupBy_from f o l)).
Proof.
  induction l as [| x r IH]; intros o Hnd; simpl; [exact Hnd |].
  apply IH, NoDup_push_group, Hnd.
Qed.

Lemma NoDup_groupBy (l : list A) : NoDup (map fst (groupBy f l)).
Proof. apply NoDup_groupBy_from. constructor. Qed.

Lemma keys_groupBy (l : list A) (k : string) :
  In k (map fst (groupBy f l)) <-> exists x, In x l /\ f x = k.
Proof.
  rewrite <- assoc_in_keys, assoc_groupBy.
  destruct (filter (has_key f k) l) as [| y g] eqn:E.
  - split; [congruence |]. intros (x & Hin & Hk).
    assert (Hx : In x (filter (has_key f k) l)).
    { apply filter_In. split; [exact Hin |]. unfold has_key.
      rewrite Hk. apply String.eqb_refl. }
    rewrite E in Hx. destruct Hx.
  - split; [| discriminate]. intros _.
    assert (Hy : In y (filter (has_key f k) l)) by (rewrite E; left; reflexivity).
    apply filter_In in Hy. destruct Hy as [Hin Hk].
    exists y. split; [exact Hin |]. apply String.eqb_eq. exact Hk.
Qed.

Lemma in_groupBy (l : list A) (k : string) (g : list A) :
  In (k, g) (groupBy f l) -> g = filter (has_key f k) l /\ g <> [].
Proof.
  intros Hin. apply assoc_of_in in Hin; [| apply NoDup_groupBy].
  rewrite assoc_groupBy in Hin.
  destruct (filter (has_key f k) l) as [| y g']; [discriminate |].
  injection Hin as <-. split; [reflexivity | discriminate].
Qed.


End GroupByFacts.

(** *** Enumeration order *)

Lemma filter_index_entries_none {V : Type} (o : object V) :
  Forall (fun e => array_index (fst e) = None) o ->
  filter is_index_entry o = []
  /\ filter (fun e => negb (is_index_entry e)) o = o.
Proof.
  induction 1 as [| e r He _ [IH1 IH2]]; simpl; [split; reflexivity |].
  assert (E : is_index_entry e = false) by (unfold is_index_entry; rewrite He; reflexivity).
  rewrite E. simpl. rewrite IH2. split; [exact IH1 | reflexivity].
Qed.

Lemma Object_entries_no_index {V : Type} (o : object V) :
  Forall (fun e => array_index (fst e) = None) o -> Object_entries o = o.
Proof.
  intros H. unfold Object_entries.
  destruct (filter_index_entries_none o H) as [E1 E2].
  rewrite E1, E2. reflexivity.
Qed.


End JSFacts.

(** ** Facts about sorting by a numeric key *)

Module SortFacts.
Import JS ListTerms.

Section AnyComparator.
Context {A : Type}.
Variable comparefn : A -> A -> number.

Lemma insert_perm (x : A) (l : list A) :
  Permutation (insert comparefn x l) (x :: l).
Proof.
  induction l as [| y r IH]; simpl; [reflexivity |].
  destruct (keeps_before comparefn x y); [reflexivity |].
  rewrite IH. apply perm_swap.
Qed.

Lemma sort_perm (l : list A) : Permutation (sort comparefn l) l.
Proof.
  induction l as [| x r IH]; simpl; [reflexivity |].
  rewrite insert_perm. constructor. exact IH.
Qed.
End AnyComparator.

Section ByKey.
Context {A : Type}.
(** The comparator is [knum x - knum y], and [key] gives the numeric key
    of the elements on which [knum] is a number. *)
Variable knum : A -> number.
Variable key : A -> Z.


Local Abbreviation comparefn := (by_key knum).
Local Abbreviation keyed := (ListTerms.keyed knum key).
Local Abbreviation key_le := (ListTerms.key_le key).
Local Abbreviation key_lt := (ListTerms.key_lt key).

Lemma keeps_before_keyed (x y : A) :
  keyed x -> keyed y -> keeps_before comparefn x y = (key x <=? key y)%Z.
Proof.
  unfold ListTerms.keyed, keeps_before, by_key. intros -> ->. simpl.
  destruct (Z.leb_spec (key x - key y) 0), (Z.leb_spec (key x) (key y));
    try reflexivity; lia.
Qed.

Lemma insert_sorted (x : A) (l : list A) :
  keyed x -> Forall keyed l ->
  StronglySorted key_le l -> StronglySorted key_le (insert comparefn x l).
Proof.
  intros Hx Hl Hs. induction Hs as [| y r Hs IH Hy]; simpl.
  - constructor; constructor.
  - inversion Hl as [| ? ? Hky Hr]; subst.
    rewrite (keeps_before_keyed x y Hx Hky).
    destruct (Z.leb_spec (key x) (key y)) as [Hle | Hgt].
    + constructor; [constructor; assumption |].
      constructor; [exact Hle |].
      eapply Forall_impl; [| exact Hy]. unfold ListTerms.key_le. intros z Hz. lia.
    + constructor; [apply IH; exact Hr |].
      eapply Permutation_Forall; [symmetry; apply insert_perm |].
      constructor; [unfold ListTerms.key_le; lia | exact Hy].
Qed.

Lemma sort_sorted (l : list A) :
  Forall keyed l -> StronglySorted key_le (sort comparefn l).
Proof.
  induction 1 as [| x r Hx Hr IH]; simpl; [constructor |].
  apply insert_sorted; [exact Hx | | exact IH].
  eapply Permutation_Forall; [symmetry; apply sort_perm | exact Hr].
Qed.

(** Stability: elements with equal keys keep their relative order. *)
Lemma insert_stable (t : Z) (x : A) (l : list A) :
  keyed x -> Forall keyed l ->
  filter (fun y => (key y =? t)%Z) (insert comparefn x l)
  = filter (fun y => (key y =? t)%Z) (x :: l).
Proof.
  intros Hx Hl. induction Hl as [| y r Hy Hr IH]; [reflexivity |].
  cbn [insert]. rewrite (keeps_before_keyed x y Hx Hy).
  destruct (Z.leb_spec (key x) (key y)) as [Hle | Hgt]; [reflexivity |].
  cbn [filter] in *. rewrite IH.
  destruct (Z.eqb_spec (key x) t) as [Ex | Nx];
    destruct (Z.eqb_spec (key y) t) as [Ey | Ny]; try reflexivity; lia.
Qed.

Lemma sort_stable (t : Z) (l : list A) :
  Forall keyed l ->
  filter (fun y => (key y =? t)%Z) (sort comparefn l)
  = filter (fun y => (key y =? t)%Z) l.
Proof.
  induction 1 as [| x r Hx Hr IH]; [reflexivity |].
  cbn [sort]. rewrite insert_stable.
  - cbn [filter]. rewrite IH. reflexivity.
  - exact Hx.
  - eapply Permutation_Forall; [symmetry; apply sort_perm | exact Hr].
Qed.

(** Sorting a sorted array changes nothing: the in-place sort of a later
    render leaves the arrays as the first render left them. *)
Lemma sort_fixed (l : list A) :
  Forall keyed l -> StronglySorted key_le l -> sort comparefn l = l.
Proof.
  intros Hl Hs. induction Hs as [| x r Hs IH Hx]; [reflexivity |].
  inversion Hl as [| ? ? Hkx Hr]; subst.
  cbn [sort]. rewrite (IH Hr).
  destruct r as [| y r']; [reflexivity |].
  cbn [insert]. inversion Hr as [| ? ? Hky _]; subst.
  rewrite (keeps_before_keyed x y Hkx Hky).
  inversion Hx as [| ? ? Hxy _]; subst.
  destruct (Z.leb_spec (key x) (key y)); [reflexivity |].
  unfold ListTerms.key_le in Hxy. lia.
Qed.

(** With pairwise distinct names, and keys that determine the name, a
    sorted list is strictly sorted. *)
Lemma strictly_sorted {N : Type} (name : A -> N) (l : list A) :
  (forall x y, In x l -> In y l -> key x = key y -> name x = name y) ->
  NoDup (map name l) ->
  StronglySorted key_le l -> StronglySorted key_lt l.
Proof.
  intros Hinj Hnd Hs. induction Hs as [| x r Hs IH Hx]; [constructor |].
  inversion Hnd as [| ? ? Hnotin Hnd']; subst.
  constructor.
  - apply IH; [| exact Hnd'].
    intros a b Ha Hb. apply Hinj; right; assumption.
  - rewrite Forall_forall in *. intros y Hy.
    specialize (Hx y Hy). unfold ListTerms.key_le in Hx. unfold ListTerms.key_lt.
    destruct (Z.eq_dec (key x) (key y)) as [E | NE]; [| lia].
    exfalso. apply Hnotin.
    rewrite (Hinj x y (or_introl eq_refl) (or_intror Hy) E).
    apply in_map. exact Hy.
Qed.
End ByKey.

(** A strictly sorted list is determined by its elements. *)
Section Canonical.
Context {A : Type}.
Variable R : A -> A -> Prop.
Hypothesis R_irrefl : forall x, ~ R x x.
Hypothesis R_trans : forall x y z, R x y -> R y z -> R x z.

Lemma strictly_sorted_unique (l1 : list A) :
  forall l2,
    StronglySorted R l1 -> StronglySorted R l2 ->
    (forall x, In x l1 <-> In x l2) -> l1 = l2.
Proof.
  induction l1 as [| a r1 IH]; intros l2 H1 H2 Hsame.
  - destruct l2 as [| b r2]; [reflexivity |].
    exfalso. apply (Hsame b). left. reflexivity.
  - destruct l2 as [| b r2].
    + exfalso. apply (Hsame a). left. reflexivity.
    + apply StronglySorted_inv in H1. destruct H1 as [S1 F1].
      apply StronglySorted_inv in H2. destruct H2 as [S2 F2].
      rewrite Forall_forall in F1, F2.
      assert (E : a = b).
      { destruct (proj1 (Hsame a) (or_introl eq_refl)) as [E | Ha]; [auto |].
        destruct (proj2 (Hsame b) (or_introl eq_refl)) as [E | Hb]; [auto |].
        exfalso. apply (R_irrefl a). eapply R_trans; [apply F1, Hb | apply F2, Ha]. }
      subst b. f_equal. apply IH; [exact S1 | exact S2 |].
      intros x. split; intros Hx.
      * destruct (proj1 (Hsame x) (or_intror Hx)) as [E | Hx']; [| exact Hx'].
        subst x. exfalso. apply (R_irrefl a), F1, Hx.
      * destruct (proj2 (Hsame x) (or_intror Hx)) as [E | Hx']; [| exact Hx'].
        subst x. exfalso. apply (R_irrefl a), F2, Hx.
Qed.
End Canonical.

Lemma StronglySorted_map {A B : Type} (g : A -> B) (R : B -> B -> Prop)
      (l : list A) :
  StronglySorted (fun x y => R (g x) (g y)) l -> StronglySorted R (map g l).
Proof.
  induction 1 as [| x r Hs IH Hx]; simpl; constructor; [exact IH |].
  rewrite Forall_forall in *. intros y Hy.
  apply in_map_iff in Hy. destruct Hy as (z & <- & Hz). apply Hx, Hz.
Qed.

Lemma StronglySorted_filter {A : Type} (R : A -> A -> Prop) (p : A -> bool)
      (l : list A) :
  StronglySorted R l -> StronglySorted R (filter p l).
Proof.
  induction 1 as [| x r Hs IH Hx]; simpl; [constructor |].
  destruct (p x); [| exact IH].
  constructor; [exact IH |].
  rewrite Forall_forall in *. intros y Hy.
  apply filter_In in Hy. apply Hx, Hy.
Qed.

End SortFacts.

(** ** Weekly attendance cohorts *)

Module AttendanceFacts.
Import JS MentorSection ListTerms MentorTerms JSFacts.


(** The flat list handed to the grouping lists each student's records in
    turn, tagged with the student. *)
Lemma flat_attendances_cons (s : StudentData) (data : list StudentData) :
  flat_attendances (s :: data)
  = (map (fun a => {| record := a;
                      student := {| ref_name := name s; ref_id := id s |} |})
         (attendances s)
     ++ flat_attendances data)%list.
Proof. reflexivity. Qed.

(** *** The selected cohort *)



(** A key that is selected but missing from a later grouping makes the
    row rendering throw. *)
Lemma stale_selection_throws (ATTENDANCE_LABELS : object (string * string)) :
  exists e, render ATTENDANCE_LABELS (Some "Jan. 6, 2020") true [] = Throw e.
Proof. eexists. reflexivity. Qed.

End AttendanceFacts.

(** ** The tab date formatter *)

Module ParseDateFacts.
Import JS MentorSection ListTerms.


Lemma append_nil_r (s : string) : s ++ EmptyString = s.
Proof. induction s as [| c r IH]; simpl; [| rewrite IH]; reflexivity. Qed.

Lemma append_assoc (a b c : string) : (a ++ b) ++ c = a ++ (b ++ c).
Proof. induction a as [| x r IH]; simpl; [| rewrite IH]; reflexivity. Qed.

Lemma occurs_append (c : ascii) (a b : string) :
  occurs c (a ++ b) = occurs c a || occurs c b.
Proof.
  induction a as [| x r IH]; simpl; [reflexivity |].
  rewrite IH. apply orb_assoc.
Qed.

Lemma split_not_nil (sep : ascii) (s : string) : split sep s <> [].
Proof.
  destruct s as [| c r]; simpl; [discriminate |].
  destruct (Ascii.eqb c sep); [discriminate |].
  destruct (split sep r); discriminate.
Qed.

(** Splitting does not cut inside a prefix that is free of the separator. *)
Lemma split_prefix (sep : ascii) (a b : string) :
  occurs sep a = false ->
  split sep (a ++ b)
  = (a ++ hd EmptyString (split sep b)) :: tl (split sep b).
Proof.
  induction a as [| c r IH]; simpl; intros H.
  - pose proof (split_not_nil sep b) as Hne.
    destruct (split sep b); [congruence | reflexivity].
  - apply orb_false_iff in H. destruct H as [Hc Hr].
    rewrite Hc, (IH Hr). reflexivity.
Qed.

Lemma split_at_separator (sep : ascii) (b : string) :
  split sep (String sep b) = EmptyString :: split sep b.
Proof. simpl. rewrite Ascii.eqb_refl. reflexivity. Qed.

(** The piece in front of the first separator. *)
Lemma split_first_piece (sep : ascii) (a b : string) :
  occurs sep a = false ->
  hd EmptyString (split sep (a ++ String sep b)) = a.
Proof.
  intros H. rewrite (split_prefix sep a _ H), split_at_separator.
  simpl. apply append_nil_r.
Qed.

Lemma month_has_no_dot (month : string) (n : Z) :
  In (month, n) MONTH_NUMBERS ->
  occurs "." month = false /\ month_text month = number_to_string n.
Proof.
  unfold MONTH_NUMBERS. simpl.
  intros H.
  repeat (destruct H as [H | H];
          [injection H as <- <-; split; reflexivity |]).
  destruct H.
Qed.

(** C10.  For a week-start text [<Mon>. <D>, <Y>] whose month is one of the
    twelve abbreviations of the table and whose day token contains neither
    a full stop nor a comma, the formatter returns the month number, a
    slash and the day token trimmed of surrounding white space; the year
    does not matter. *)
Theorem parseDate_month_day (Mon D Y : string) (M : Z) :
  In (Mon, M) MONTH_NUMBERS ->
  occurs "." D = false ->
  occurs "," D = false ->
  parseDate (Mon ++ ". " ++ D ++ ", " ++ Y)
  = Normal (number_to_string M ++ "/" ++ trim D).
Proof.
  intros HM Hdot Hcomma.
  destruct (month_has_no_dot Mon M HM) as [Hmon Htext].
  unfold parseDate.
  change (Mon ++ ". " ++ D ++ ", " ++ Y)
    with (Mon ++ String "." (String " " (D ++ String "," (String " " Y)))).
  rewrite (split_prefix "." Mon _ Hmon), split_at_separator.
  cbn [hd tl]. rewrite append_nil_r.
  (* the second piece: everything up to the next full stop *)
  replace (String " " (D ++ String "," (String " " Y)))
    with ((String " " D ++ ", ") ++ Y)
    by (simpl; rewrite append_assoc; reflexivity).
  rewrite (split_prefix "." (String " " D ++ ", ") Y).
  2:{ rewrite occurs_append. simpl. rewrite Hdot. reflexivity. }
  cbn [tl hd].
  set (Y1 := hd EmptyString (split "." Y)).
  replace ((String " " D ++ ", ") ++ Y1)
    with (String " " D ++ String "," (String " " Y1))
    by (simpl; rewrite append_assoc; reflexivity).
  rewrite split_first_piece by (simpl; exact Hcomma).
  rewrite Htext. reflexivity.
Qed.

Lemma parseDate_month_day_example :
  parseDate "Jan. 6, 2020" = Normal "1/6".
Proof.
  apply (parseDate_month_day "Jan" "6" "2020" 1%Z).
  - simpl. auto.
  - reflexivity.
  - reflexivity.
Defined.

(** A text without a full stop makes the formatter throw. *)
Lemma parseDate_without_dot :
  exists e, parseDate "2020-01-06" = Throw e.
Proof. eexists. reflexivity. Qed.

End ParseDateFacts.

(** ** Sections by weekday *)

Module DayFacts.
Import JS Course ListTerms CourseTerms JSFacts SortFacts.


Lemma week_canonical :
  week = ["Monday"; "Tuesday"; "Wednesday"; "Thursday"; "Friday"; "Saturday"; "Sunday"]
  /\ map day_index week = [0; 1; 2; 3; 4; 5; 6]%Z.
Proof. split; reflexivity. Qed.

Ltac each_weekday H :=
  unfold week in H; simpl in H;
  repeat (destruct H as [H | H]; [subst |]); [.. | destruct H].

Lemma weekday_number (d : string) :
  In d week -> day_number d = Fin (day_index d).
Proof. intros H. each_weekday H; reflexivity. Qed.

Lemma weekday_not_index (d : string) : In d week -> array_index d = None.
Proof. intros H. each_weekday H; reflexivity. Qed.

Lemma day_index_injective (d1 d2 : string) :
  In d1 week -> In d2 week -> day_index d1 = day_index d2 -> d1 = d2.
Proof.
  intros H1 H2. each_weekday H1; each_weekday H2;
    intros E; solve [reflexivity | discriminate E].
Qed.

Lemma week_sorted : StronglySorted earlier week.
Proof.
  unfold week, earlier. simpl.
  repeat (constructor; [| repeat constructor]).
  constructor.
Qed.

Lemma earlier_irrefl (d : string) : ~ earlier d d.
Proof. unfold earlier. lia. Qed.

Lemma earlier_trans (a b c : string) : earlier a b -> earlier b c -> earlier a c.
Proof. unfold earlier. lia. Qed.

Section Displayed.
Variable moment_time : string -> number.

Local Abbreviation start_ms := (CourseTerms.start_ms moment_time).
Local Abbreviation valid_start := (CourseTerms.valid_start moment_time).


Lemma valid_start_keyed (s : SectionData) :
  valid_start s ->
  keyed (fun x => moment_time (st_startTime (defaultSpacetime x))) start_ms s.
Proof.
  unfold CourseTerms.valid_start, keyed, CourseTerms.start_ms.
  intros [t ->]. reflexivity.
Qed.

(** What [Day] does to the array of one weekday. *)
Lemma Day_sections_sorted (l : list SectionData) :
  Forall valid_start l ->
  StronglySorted (fun a b => (start_ms a <= start_ms b)%Z) (Day_sections moment_time l)
  /\ Permutation (Day_sections moment_time l) l
  /\ (forall t, filter (fun s => (start_ms s =? t)%Z) (Day_sections moment_time l)
                = filter (fun s => (start_ms s =? t)%Z) l).
Proof.
  intros H.
  assert (K : Forall (keyed (fun x => moment_time (st_startTime (defaultSpacetime x)))
                            start_ms) l).
  { eapply Forall_impl; [| exact H]. exact valid_start_keyed. }
  unfold Day_sections.
  change (startTime_comparator moment_time)
    with (by_key (fun x => moment_time (st_startTime (defaultSpacetime x)))).
  split; [| split].
  - exact (sort_sorted _ start_ms l K).
  - apply sort_perm.
  - intros t. exact (sort_stable _ start_ms t l K).
Qed.

(** A later render finds the arrays already sorted and leaves them so. *)
Lemma Day_sections_idempotent (l : list SectionData) :
  Forall valid_start l ->
  Day_sections moment_time (Day_sections moment_time l) = Day_sections moment_time l.
Proof.
  intros H. destruct (Day_sections_sorted l H) as (Hs & Hp & _).
  assert (K : Forall (keyed (fun x => moment_time (st_startTime (defaultSpacetime x)))
                            start_ms) (Day_sections moment_time l)).
  { eapply Permutation_Forall; [symmetry; exact Hp |].
    eapply Forall_impl; [| exact H]. exact valid_start_keyed. }
  unfold Day_sections at 1.
  change (startTime_comparator moment_time)
    with (by_key (fun x => moment_time (st_startTime (defaultSpacetime x)))).
  exact (sort_fixed _ start_ms _ K Hs).
Qed.

(** The arrays that a render leaves in the component state are in the
    order shown, and the next render shows them in that same order. *)
Lemma second_render_keeps_order (st : State) :
  viewSection st = None ->
  Forall (fun item => Forall valid_start (snd item)) (sections st) ->
  Forall (fun item => Day_sections moment_time (snd item) = snd item)
         (sections_after_render moment_time st).
Proof.
  intros Hv H. unfold sections_after_render. rewrite Hv.
  induction H as [| item r Hitem _ IH]; simpl; constructor; [| exact IH].
  simpl. apply Day_sections_idempotent, Hitem.
Qed.

(** The weekday keys after [sort(dayComparator)]. *)
Lemma sorted_day_keys (fetched : list SectionData) :
  Forall (fun s => In (day_of s) week) fetched ->
  let grouped := groupBy day_of fetched in
  Object_entries grouped = grouped
  /\ Permutation (sort dayComparator grouped) grouped
  /\ map fst (sort dayComparator grouped)
     = filter (fun d => existsb (fun s => String.eqb (day_of s) d) fetched) week.
Proof.
  intros Hdays grouped.
  assert (Hkeys : forall e, In e grouped -> In (fst e) week).
  { intros [k g] Hin. simpl.
    assert (Hk : In k (map fst grouped))
      by (apply in_map_iff; exists (k, g); split; [reflexivity | exact Hin]).
    apply keys_groupBy in Hk. destruct Hk as (s & Hs & <-).
    rewrite Forall_forall in Hdays. apply Hdays, Hs. }
  assert (Hperm : Permutation (sort dayComparator grouped) grouped)
    by apply sort_perm.
  split; [| split; [exact Hperm |]].
  - apply Object_entries_no_index. apply Forall_forall.
    intros e He. apply weekday_not_index, Hkeys, He.
  - apply (strictly_sorted_unique earlier earlier_irrefl earlier_trans).
    + apply (StronglySorted_map fst earlier).
      assert (K : Forall (keyed (fun e : string * list SectionData => day_number (fst e))
                                (fun e => day_index (fst e)))
                         grouped).
      { apply Forall_forall. intros e He. apply weekday_number, Hkeys, He. }
      apply (strictly_sorted (fun e : string * list SectionData => day_index (fst e))
                             fst).
      * intros x y Hx Hy. apply day_index_injective; apply Hkeys;
          eapply Permutation_in; eauto.
      * eapply Permutation_NoDup; [apply Permutation_map; symmetry; exact Hperm |].
        apply NoDup_groupBy.
      * exact (sort_sorted _ _ grouped K).
    + apply StronglySorted_filter, week_sorted.
    + intros d. rewrite filter_In, existsb_exists.
      transitivity (In d (map fst grouped)).
      * split; apply Permutation_in; apply Permutation_map;
          [exact Hperm | symmetry; exact Hperm].
      * unfold grouped. rewrite keys_groupBy. split.
        -- intros (s & Hs & E). split.
           ++ subst d. rewrite Forall_forall in Hdays. apply Hdays, Hs.
           ++ exists s. split; [exact Hs | apply String.eqb_eq, E].
        -- intros (_ & s & Hs & E). exists s. split; [exact Hs |].
           apply String.eqb_eq, E.
Qed.

(** The composition of grouping, day sort and per-day sort, for sections
    whose weekday is one of the seven names and whose start time parses. *)
Lemma displayed_days_in_week_order (fetched : list SectionData) :
  Forall (fun s => In (day_of s) week) fetched ->
  Forall valid_start fetched ->
  map fst (displayed_days moment_time fetched)
  = filter (fun d => existsb (fun s => String.eqb (day_of s) d) fetched) week
  /\ (forall fetched',
         Permutation fetched fetched' ->
         map fst (displayed_days moment_time fetched')
         = map fst (displayed_days moment_time fetched))
  /\ (forall d shown,
         In (d, shown) (displayed_days moment_time fetched) ->
         shown = Day_sections moment_time (on_day d fetched)
         /\ StronglySorted (fun a b => (start_ms a <= start_ms b)%Z) shown
         /\ Permutation shown (on_day d fetched)
         /\ (forall t, filter (fun s => (start_ms s =? t)%Z) shown
                       = filter (fun s => (start_ms s =? t)%Z) (on_day d fetched))).
Proof.
  intros Hdays Htimes.
  assert (Hfst : forall fs,
             Forall (fun s => In (day_of s) week) fs ->
             map fst (displayed_days moment_time fs)
             = filter (fun d => existsb (fun s => String.eqb (day_of s) d) fs) week).
  { intros fs Hfs. destruct (sorted_day_keys fs Hfs) as (He & _ & Hk).
    unfold displayed_days. fold day_of. rewrite He, map_map. simpl. exact Hk. }
  split; [exact (Hfst fetched Hdays) | split].
  - intros fetched' Hp.
    rewrite (Hfst fetched Hdays).
    rewrite Hfst by (eapply Permutation_Forall; [exact Hp | exact Hdays]).
    apply filter_ext. intros d.
    apply eq_true_iff_eq. rewrite !existsb_exists.
    split; intros (s & Hs & E); exists s; (split; [| exact E]).
    + apply (Permutation_in s (Permutation_sym Hp) Hs).
    + apply (Permutation_in s Hp Hs).
  - intros d shown Hin.
    destruct (sorted_day_keys fetched Hdays) as (He & Hperm & _).
    unfold displayed_days in Hin. fold day_of in Hin. rewrite He in Hin.
    apply in_map_iff in Hin. destruct Hin as ([k g] & E & Hin).
    simpl in E. injection E as -> <-.
    apply (Permutation_in _ Hperm) in Hin.
    apply in_groupBy in Hin. destruct Hin as [Hg _].
    fold (on_day d fetched) in Hg. subst g.
    split; [reflexivity |].
    apply Day_sections_sorted.
    unfold on_day. rewrite Forall_forall in *. intros s Hs.
    apply filter_In in Hs. apply Htimes, Hs.
Qed.

(** The page shows exactly these groups: the tab headers are the day keys
    and each tab lists the enroll rows of its sections in that order. *)
Lemma render_displayed_days (moment_display : string -> string)
      (fetched : list SectionData) (st : State) :
  viewSection st = None ->
  render moment_time moment_display (sections_then fetched st)
  = Page (course_name (course st)) (enrolled st) (negb (enrollmentOpen st))
         (map fst (displayed_days moment_time fetched))
         (map (fun item =>
                 (fst item,
                  map (SectionEnroll moment_display (enrolled st) (enrollmentOpen st))
                      (snd item)))
              (displayed_days moment_time fetched)).
Proof.
  intros Hv. unfold render, sections_then, set_sections, sorted_days, displayed_days.
  simpl. rewrite Hv, !map_map. reflexivity.
Qed.

(** C5.  For fetched sections whose weekday is one of the seven names and
    whose start time parses, the page rendered after the fetch shows its
    day groups, tab headers and tabs alike, in the canonical week order
    (the weekdays that occur, Monday first), the same for every reordering
    of the fetched list, and each day lists the enroll rows of exactly that
    day's sections by ascending start time, sections with equal start
    times in fetched order. *)
Theorem page_days_in_week_order (moment_display : string -> string)
        (fetched : list SectionData) (st : State) :
  viewSection st = None ->
  Forall (fun s => In (day_of s) week) fetched ->
  Forall valid_start fetched ->
  exists headers days,
    render moment_time moment_display (sections_then fetched st)
    = Page (course_name (course st)) (enrolled st) (negb (enrollmentOpen st))
           headers days
    /\ headers
       = filter (fun d => existsb (fun s => String.eqb (day_of s) d) fetched) week
    /\ map fst days = headers
    /\ (forall fetched',
           Permutation fetched fetched' ->
           exists days',
             render moment_time moment_display (sections_then fetched' st)
             = Page (course_name (course st)) (enrolled st)
                    (negb (enrollmentOpen st)) headers days'
             /\ map fst days' = headers)
    /\ (forall d views,
           In (d, views) days ->
           exists shown,
             views = map (SectionEnroll moment_display (enrolled st)
                                        (enrollmentOpen st)) shown
             /\ StronglySorted (fun a b => (start_ms a <= start_ms b)%Z) shown
             /\ Permutation shown (on_day d fetched)
             /\ (forall t,
                    filter (fun s => (start_ms s =? t)%Z) shown
                    = filter (fun s => (start_ms s =? t)%Z) (on_day d fetched))).
Proof.
  intros Hv Hdays Htimes.
  destruct (displayed_days_in_week_order fetched Hdays Htimes)
    as (Hk & Hsame & Hgroups).
  rewrite (render_displayed_days moment_display fetched st Hv).
  do 2 eexists. split; [rewrite Hk; reflexivity |].
  split; [reflexivity |].
  split; [rewrite map_map; simpl; exact Hk |].
  split.
  - intros fetched' Hp.
    rewrite (render_displayed_days moment_display fetched' st Hv).
    rewrite (Hsame fetched' Hp), Hk.
    eexists. split; [reflexivity |].
    rewrite map_map. simpl.
    change (map (fun x : string * list SectionData => fst x)
                (displayed_days moment_time fetched'))
      with (map fst (displayed_days moment_time fetched')).
    rewrite (Hsame fetched' Hp). exact Hk.
  - intros d views Hin. apply in_map_iff in Hin.
    destruct Hin as ([k shown] & E & Hin). simpl in E. injection E as -> <-.
    exists shown. split; [reflexivity |].
    destruct (Hgroups d shown Hin) as (_ & Hs & Hp & Hst).
    split; [exact Hs |]. split; [exact Hp | exact Hst].
Qed.
End Displayed.


Lemma page_days_in_week_order_sample :
  exists days,
    render sample_clock (fun t => t)
           (sections_then sample_sections (constructor cs61a))
    = Page "CS61A" false true ["Monday"; "Wednesday"] days
    /\ map fst days = ["Monday"; "Wednesday"].
Proof.
  destruct (page_days_in_week_order sample_clock (fun t => t) sample_sections
              (constructor cs61a))
    as (headers & days & Hr & Hh & Hk & _).
  - reflexivity.
  - unfold sample_sections, week.
    repeat (apply Forall_cons; [simpl; auto 10 |]). apply Forall_nil.
  - unfold sample_sections.
    repeat (apply Forall_cons; [eexists; reflexivity |]). apply Forall_nil.
  - exists days. rewrite Hh in Hr, Hk. split; [exact Hr | exact Hk].
Defined.

Lemma displayed_days_sample :
  displayed_days sample_clock sample_sections
  = [ ("Monday", [ sample_section 3 "Monday" "09:00:00";
                   sample_section 2 "Monday" "14:30:00";
                   sample_section 4 "Monday" "14:30:00" ]);
      ("Wednesday", [ sample_section 1 "Wednesday" "10:00:00" ]) ].
Proof. reflexivity. Qed.

End DayFacts.

(** ** The drop workflow *)

Module DropFacts.
Import JS StudentSection DropTerms.


Lemma controls_by_stage (st : State) :
  controls (render st)
  = match stage st with
    | INITIAL => [ (DropButton, SetStage CONFIRM) ]
    | CONFIRM => [ (ModalOverlay, SetStage INITIAL); (ConfirmButton, PerformDrop) ]
    | DROPPED => []
    end.
Proof. unfold render. destruct (stage st); reflexivity. Qed.

(** C6 as stated fails: after a confirmed drop whose call is still in
    flight, closing the modal brings the stage back to [INITIAL], and the
    fulfilment of the call then takes [INITIAL] directly to [DROPPED]. *)
Lemma initial_to_dropped_reachable :
  ~ (forall es w e w',
        steps 42%Z mount es = Some w ->
        at_stage INITIAL w ->
        step 42%Z w e = Some w' ->
        ~ at_stage DROPPED w').
Proof.
  intros H.
  apply (H [Click DropButton; Click ConfirmButton; Click ModalOverlay]
           {| component := {| stage := INITIAL |};
              issued := [drop_request 42%Z]; pending := 1 |}
           Fulfilled
           {| component := {| stage := DROPPED |};
              issued := [drop_request 42%Z]; pending := 0 |});
    reflexivity.
Qed.

(** C7 as stated fails: the click on the confirm button issues the call
    and returns with the stage still [CONFIRM]. *)
Lemma confirm_leaves_stage_pending :
  step 42%Z confirming (Click ConfirmButton)
  = Some {| component := {| stage := CONFIRM |};
            issued := [drop_request 42%Z]; pending := 1 |}
  /\ ~ (forall w w',
           at_stage CONFIRM w ->
           step 42%Z w (Click ConfirmButton) = Some w' ->
           at_stage DROPPED w').
Proof.
  split; [reflexivity |].
  intros H.
  specialize (H confirming _ eq_refl eq_refl). discriminate H.
Qed.

Section Workflow.
Variable profileId : Z.

Lemma step_stage_change (w w' : World) (e : event) :
  step profileId w e = Some w' ->
  match e with
  | Click DropButton =>
      at_stage INITIAL w /\ at_stage CONFIRM w'
      /\ issued w' = issued w /\ pending w' = pending w
  | Click ModalOverlay =>
      at_stage CONFIRM w /\ component w' = constructor
      /\ issued w' = issued w /\ pending w' = pending w
  | Click ConfirmButton =>
      at_stage CONFIRM w /\ at_stage CONFIRM w'
      /\ issued w' = (issued w ++ [drop_request profileId])%list
      /\ pending w' = S (pending w)
  | Click (ModalCloseChild _) => False
  | Fulfilled =>
      at_stage DROPPED w' /\ issued w' = issued w /\ pending w = S (pending w')
  | Rejected =>
      component w' = component w /\ issued w' = issued w
      /\ pending w = S (pending w')
  end.
Proof.
  unfold at_stage. destruct w as [[s] calls n]. destruct e as [c | |]; simpl.
  - rewrite controls_by_stage. simpl.
    destruct s, c; simpl; intros E; try discriminate E;
      injection E as <-; simpl; repeat split; reflexivity.
  - destruct n; intros E; [discriminate E |]. injection E as <-.
    simpl. repeat split; reflexivity.
  - destruct n; intros E; [discriminate E |]. injection E as <-.
    simpl. repeat split; reflexivity.
Qed.

Lemma step_consistent (w w' : World) (e : event) :
  consistent w -> step profileId w e = Some w' -> consistent w'.
Proof.
  unfold consistent. intros [Hp Hd] Hstep.
  apply step_stage_change in Hstep.
  destruct e as [[| | i |] | |]; unfold at_stage in *.
  - destruct Hstep as (_ & Hc & Hi & Hn). rewrite Hi, Hn, Hc.
    split; [exact Hp | discriminate].
  - destruct Hstep as (_ & Hc & Hi & Hn). rewrite Hi, Hn, Hc.
    split; [exact Hp | discriminate].
  - destruct Hstep.
  - destruct Hstep as (_ & Hc & Hi & Hn). rewrite Hi, Hn, Hc, List.length_app.
    simpl. split; [lia | discriminate].
  - destruct Hstep as (_ & Hi & Hn). rewrite Hi. split; [lia |].
    intros _ E. rewrite E in Hp. simpl in Hp. lia.
  - destruct Hstep as (Hc & Hi & Hn). rewrite Hi, Hc. split; [lia | exact Hd].
Qed.

Lemma reachable_consistent (w : World) :
  reachable profileId w -> consistent w.
Proof.
  intros [es Hes].
  assert (G : forall w0, consistent w0 -> steps profileId w0 es = Some w -> consistent w).
  { clear Hes. induction es as [| e r IH]; simpl; intros w0 H0 Hs.
    - injection Hs as <-. exact H0.
    - destruct (step profileId w0 e) as [w1 |] eqn:E; [| discriminate Hs].
      apply (IH w1); [eapply step_consistent; eauto | exact Hs]. }
  apply (G mount); [| exact Hes].
  unfold consistent, at_stage. simpl. split; [lia | discriminate].
Qed.

(** C6 (amended).  Over the stages initial, confirm-pending and dropped:
    request-drop takes initial to confirm-pending; cancel takes
    confirm-pending back to the component state of a fresh mount and issues
    nothing; confirm in confirm-pending issues the drop call, and the
    fulfilment of that call takes the stage to dropped; the stage only ever
    becomes dropped by the fulfilment of a drop call, calls are only issued
    by confirm in confirm-pending, so that dropped is never reached without
    a confirm; and confirm is not available in initial. *)
Theorem drop_workflow (w : World) :
  reachable profileId w ->
  (at_stage INITIAL w ->
   step profileId w (Click DropButton)
   = Some {| component := {| stage := CONFIRM |};
             issued := issued w; pending := pending w |})
  /\ (at_stage CONFIRM w ->
      step profileId w (Click ModalOverlay)
      = Some {| component := constructor;
                issued := issued w; pending := pending w |})
  /\ (at_stage CONFIRM w ->
      step profileId w (Click ConfirmButton) = Some (performDrop profileId w)
      /\ step profileId (performDrop profileId w) Fulfilled
         = Some {| component := {| stage := DROPPED |};
                   issued := issued (performDrop profileId w);
                   pending := pending w |})
  /\ (forall e w',
         step profileId w e = Some w' ->
         at_stage DROPPED w' -> ~ at_stage DROPPED w ->
         e = Fulfilled /\ pending w <> 0 /\ issued w <> [])
  /\ (forall e w',
         step profileId w e = Some w' ->
         issued w' <> issued w ->
         e = Click ConfirmButton /\ at_stage CONFIRM w)
  /\ (at_stage DROPPED w -> issued w <> [])
  /\ (at_stage INITIAL w -> step profileId w (Click ConfirmButton) = None).
Proof.
  intros Hreach. pose proof (reachable_consistent w Hreach) as [Hp Hd].
  unfold at_stage in *.
  split; [| split; [| split; [| split; [| split; [| split]]]]].
  - intros Hs. destruct w as [[s] calls n]. simpl in Hs. subst s. reflexivity.
  - intros Hs. destruct w as [[s] calls n]. simpl in Hs. subst s. reflexivity.
  - intros Hs. destruct w as [[s] calls n]. simpl in Hs. subst s.
    split; reflexivity.
  - intros e w' Hstep Hd' Hnd. apply step_stage_change in Hstep.
    unfold at_stage in Hstep.
    destruct e as [[| | i |] | |].
    + destruct Hstep as (_ & Hc & _). congruence.
    + destruct Hstep as (_ & Hc & _). rewrite Hc in Hd'. discriminate Hd'.
    + destruct Hstep.
    + destruct Hstep as (_ & Hc & _). congruence.
    + destruct Hstep as (_ & _ & Hn).
      split; [reflexivity |]. split; [lia |].
      intros E. rewrite E in Hp. simpl in Hp. lia.
    + destruct Hstep as (Hc & _). rewrite Hc in Hd'. contradiction.
  - intros e w' Hstep Hne. apply step_stage_change in Hstep.
    unfold at_stage in Hstep.
    destruct e as [[| | i |] | |].
    + destruct Hstep as (_ & _ & Hi & _). contradiction.
    + destruct Hstep as (_ & _ & Hi & _). contradiction.
    + destruct Hstep.
    + destruct Hstep as (Hc & _). split; [reflexivity | exact Hc].
    + destruct Hstep as (_ & Hi & _). contradiction.
    + destruct Hstep as (_ & Hi & _). contradiction.
  - exact Hd.
  - intros Hs. destruct w as [[s] calls n]. simpl in Hs. subst s. reflexivity.
Qed.

(** C7 (amended).  When confirm fires in confirm-pending, exactly one drop
    call is issued and the click leaves the stage confirm-pending: the
    transition to dropped is not part of the click.  Afterwards, in
    whatever stage the component then is, the fulfilment of a pending call
    sets the stage to dropped and nothing else does; the rejection of a
    pending call changes neither the stage nor the calls; and while the
    call is in flight the overlay still takes the stage back to initial.
    There is no rollback: once dropped, no event changes the stage or
    issues a call. *)
Theorem confirm_issues_drop (w : World) :
  at_stage CONFIRM w ->
  (exists w1,
      step profileId w (Click ConfirmButton) = Some w1
      /\ issued w1 = (issued w ++ [drop_request profileId])%list
      /\ pending w1 = S (pending w)
      /\ at_stage CONFIRM w1
      /\ (exists w2, step profileId w1 (Click ModalOverlay) = Some w2
                     /\ at_stage INITIAL w2 /\ issued w2 = issued w1
                     /\ pending w2 = pending w1))
  /\ (forall v, pending v <> 0 ->
                exists v1 v2,
                  step profileId v Fulfilled = Some v1
                  /\ at_stage DROPPED v1 /\ issued v1 = issued v
                  /\ step profileId v Rejected = Some v2
                  /\ component v2 = component v /\ issued v2 = issued v
                  /\ pending v = S (pending v1) /\ pending v = S (pending v2))
  /\ (forall v, pending v = 0 ->
                step profileId v Fulfilled = None
                /\ step profileId v Rejected = None)
  /\ (forall v e v',
         step profileId v e = Some v' ->
         at_stage DROPPED v' -> ~ at_stage DROPPED v -> e = Fulfilled)
  /\ (forall wd e wd',
         at_stage DROPPED wd -> step profileId wd e = Some wd' ->
         at_stage DROPPED wd' /\ issued wd' = issued wd).
Proof.
  unfold at_stage. intros Hs. destruct w as [[s] calls n]. simpl in Hs. subst s.
  split; [| split; [| split; [| split]]].
  - eexists. split; [reflexivity |]. simpl.
    split; [reflexivity |]. split; [reflexivity |]. split; [reflexivity |].
    eexists. split; [reflexivity |]. repeat split.
  - intros [c i [| p]] Hp; [simpl in Hp; congruence |].
    do 2 eexists. simpl. repeat split.
  - intros [c i p] Hp. simpl in Hp. subst p. split; reflexivity.
  - intros v e v' Hstep Hd Hnd. apply step_stage_change in Hstep.
    unfold at_stage in Hstep.
    destruct e as [[| | i |] | |].
    + destruct Hstep as (_ & Hc & _). congruence.
    + destruct Hstep as (_ & Hc & _). rewrite Hc in Hd. discriminate Hd.
    + destruct Hstep.
    + destruct Hstep as (_ & Hc & _). congruence.
    + reflexivity.
    + destruct Hstep as (Hc & _). rewrite Hc in Hd. contradiction.
  - intros wd e wd' Hd Hstep. apply step_stage_change in Hstep.
    unfold at_stage in Hstep.
    destruct e as [[| | i |] | |].
    + destruct Hstep as (Hc & _). congruence.
    + destruct Hstep as (Hc & _). congruence.
    + destruct Hstep.
    + destruct Hstep as (Hc & _). congruence.
    + destruct Hstep as (Hc & Hi & _). split; assumption.
    + destruct Hstep as (Hc & Hi & _). rewrite Hc. split; assumption.
Qed.
End Workflow.

Lemma drop_workflow_after_request :
  step 42%Z {| component := {| stage := CONFIRM |}; issued := []; pending := 0 |}
       (Click ModalOverlay)
  = Some mount.
Proof.
  destruct (drop_workflow 42%Z
              {| component := {| stage := CONFIRM |}; issued := []; pending := 0 |})
    as (_ & Hcancel & _).
  - exists [Click DropButton]. reflexivity.
  - apply Hcancel. reflexivity.
Defined.

Lemma confirm_issues_drop_once :
  exists w1,
    step 42%Z confirming (Click ConfirmButton) = Some w1
    /\ issued w1 = [drop_request 42%Z]
    /\ at_stage CONFIRM w1.
Proof.
  destruct (confirm_issues_drop 42%Z confirming eq_refl)
    as ((w1 & Hstep & Hi & _ & Hc & _) & _).
  exists w1. split; [exact Hstep |]. split; [exact Hi | exact Hc].
Defined.

End DropFacts.

(* ===================================================================== *)
(** * Part VII.  Further properties of the components                    *)
(* ===================================================================== *)

(** ** Grouping, enumeration and traversal *)

Module CollectionFacts.
Import JS ListTerms JSFacts SortFacts.

Lemma filter_split_perm {A : Type} (p : A -> bool) (l : list A) :
  Permutation (filter p l ++ filter (fun x => negb (p x)) l) l.
Proof.
  induction l as [| x r IH]; simpl; [constructor |].
  destruct (p x); simpl.
  - constructor. exact IH.
  - rewrite <- Permutation_middle. constructor. exact IH.
Qed.

(** Enumeration reorders the properties, it neither drops nor invents
    one. *)
Lemma Object_entries_perm {V : Type} (o : object V) :
  Permutation (Object_entries o) o.
Proof.
  unfold Object_entries.
  rewrite (sort_perm _ (filter is_index_entry o)).
  apply filter_split_perm.
Qed.


Section Groups.
Context {A : Type}.
Variable f : A -> string.

Lemma members_push_group (k : string) (x : A) (o : object (list A)) :
  Permutation (flat_map snd (push_group k x o)) (flat_map snd o ++ [x]).
Proof.
  induction o as [| [k0 xs] r IH]; simpl; [reflexivity |].
  destruct (String.eqb k k0); simpl.
  - rewrite <- !app_assoc. apply Permutation_app_head, Permutation_app_comm.
  - rewrite IH, app_assoc. reflexivity.
Qed.

Lemma members_groupBy_from (l : list A) :
  forall o,
    Permutation (flat_map snd (groupBy_from f o l)) (flat_map snd o ++ l).
Proof.
  induction l as [| x r IH]; intros o; simpl.
  - rewrite app_nil_r. reflexivity.
  - rewrite IH, members_push_group, <- app_assoc. reflexivity.
Qed.

(** The groups together hold exactly the elements of the collection. *)
Lemma members_groupBy (l : list A) :
  Permutation (flat_map snd (groupBy f l)) l.
Proof. unfold groupBy. rewrite members_groupBy_from. reflexivity. Qed.
End Groups.

Lemma flat_map_snd_map {K A B : Type} (g : list A -> list B) (h : A -> B)
      (es : list (K * list A)) :
  (forall l, g l = map h l) ->
  flat_map snd (map (fun item => (fst item, g (snd item))) es)
  = map h (flat_map snd es).
Proof.
  intros Hg. induction es as [| e r IH]; simpl; [reflexivity |].
  rewrite IH, Hg, map_app. reflexivity.
Qed.

Lemma flat_map_snd_perm {K A : Type} (g : list A -> list A)
      (es : list (K * list A)) :
  (forall l, Permutation (g l) l) ->
  Permutation (flat_map snd (map (fun item => (fst item, g (snd item))) es))
              (flat_map snd es).
Proof.
  intros Hg. induction es as [| e r IH]; simpl; [constructor |].
  apply Permutation_app; [apply Hg | exact IH].
Qed.

(** *** [map] with a callback that may throw *)


Lemma mapM_throws {A B : Type} (f : A -> completion B) (l : list A) (x : A) :
  In x l -> (exists e, f x = Throw e) -> exists e, mapM f l = Throw e.
Proof.
  induction l as [| z r IH]; intros Hin Hx; [destruct Hin |]. simpl.
  destruct (f z) as [y | e] eqn:Ez; [| exists e; reflexivity].
  destruct Hin as [-> | Hin].
  - destruct Hx as [e He]. congruence.
  - destruct (IH Hin Hx) as [e He]. rewrite He. exists e. reflexivity.
Qed.

Lemma mapM_inv {A B : Type} (f : A -> completion B) (l : list A) (ys : list B) :
  mapM f l = Normal ys -> Forall2 (fun x y => f x = Normal y) l ys.
Proof.
  revert ys. induction l as [| x r IH]; intros ys; simpl.
  - intros E. injection E as <-. constructor.
  - destruct (f x) as [y | e] eqn:Ex; simpl; [| discriminate].
    destruct (mapM f r) as [zs | e] eqn:Er; simpl; [| discriminate].
    intros E. injection E as <-. constructor; [exact Ex | apply IH; reflexivity].
Qed.

End CollectionFacts.

(** ** The course page *)

Module CourseMore.
Import JS Course ListTerms CourseTerms JSFacts SortFacts CollectionFacts.

Section Page.
Variable moment_time : string -> number.
Variable moment_display : string -> string.

Lemma displayed_days_members (fetched : list SectionData) :
  Permutation (flat_map snd (displayed_days moment_time fetched)) fetched.
Proof.
  unfold displayed_days.
  etransitivity; [apply flat_map_snd_perm; intros l; apply sort_perm |].
  etransitivity; [apply Permutation_flat_map, sort_perm |].
  etransitivity; [apply Permutation_flat_map, Object_entries_perm |].
  apply members_groupBy.
Qed.

(** Whatever the weekday and start-time texts are (even ones that are no
    weekday or do not parse), the page built from a fetched list shows
    every fetched section exactly once, and one tab header per day group,
    in the same order as the groups. *)
Theorem every_section_listed_once (fetched : list SectionData) (st : State) :
  viewSection st = None ->
  exists label enrolled_alert not_open_alert headers days,
    render moment_time moment_display (sections_then fetched st)
    = Page label enrolled_alert not_open_alert headers days
    /\ headers = map fst days
    /\ Permutation (map view_section (flat_map snd days)) (map id fetched).
Proof.
  intros Hv.
  rewrite (DayFacts.render_displayed_days moment_time moment_display fetched st Hv).
  do 5 eexists. split; [reflexivity |].
  split; [rewrite map_map; reflexivity |].
  rewrite (flat_map_snd_map
             (map (SectionEnroll moment_display (enrolled st) (enrollmentOpen st)))
             (SectionEnroll moment_display (enrolled st) (enrollmentOpen st)))
    by reflexivity.
  rewrite map_map. simpl.
  apply Permutation_map, displayed_days_members.
Qed.

(** The banners and the buttons agree: when the page says that the student
    is enrolled, or that the course is not open, every enroll button on it
    is disabled, whatever sections the state holds. *)
Theorem banner_disables_every_button (st : State) :
  viewSection st = None ->
  enrolled st = true \/ enrollmentOpen st = false ->
  exists label headers days,
    render moment_time moment_display st
    = Page label (enrolled st) (negb (enrollmentOpen st)) headers days
    /\ (enrolled st = true \/ negb (enrollmentOpen st) = true)
    /\ Forall (fun v => view_disabled v = true) (flat_map snd days).
Proof.
  intros Hv Hb. unfold render. rewrite Hv. do 3 eexists.
  split; [reflexivity |]. split.
  - destruct Hb as [-> | ->]; [left | right]; reflexivity.
  - apply Forall_forall. intros v Hin.
    apply in_flat_map in Hin. destruct Hin as (day & Hday & Hin).
    apply in_map_iff in Hday. destruct Hday as (item & <- & _).
    simpl in Hin. unfold Day in Hin.
    apply in_map_iff in Hin. destruct Hin as (s & <- & _).
    simpl. apply EnrollFacts.disabled_iff. tauto.
Qed.

Lemma viewSection_kept (moment : string -> number) (window : scope)
      (us : list update) :
  Forall (fun u => forall i, u <> SectionViewed i) us ->
  forall st, viewSection (apply_updates moment window st us) = viewSection st.
Proof.
  unfold apply_updates.
  induction 1 as [| u r Hu _ IH]; intros st; simpl; [reflexivity |].
  rewrite IH. destruct u as [now | ps | fetched | c | i]; simpl; try reflexivity.
  - unfold profiles_then. destruct (profiles_enrolled window ps); reflexivity.
  - exfalso. apply (Hu i). reflexivity.
Qed.

(** Once a section is being viewed the component renders the redirect to
    it, and no later state write (window evaluation, fetched profiles or
    sections, a change of course) brings the page back: only another
    [viewSection] call replaces the target. *)
Theorem redirect_is_sticky (moment : string -> number) (window : scope)
        (st : State) (v : Z) (us : list update) :
  viewSection st = Some v ->
  Forall (fun u => forall i, u <> SectionViewed i) us ->
  render moment_time moment_display (apply_updates moment window st us)
  = Redirect ("/sections/" ++ number_to_string v).
Proof.
  intros Hv Hus. unfold render.
  rewrite (viewSection_kept moment window us Hus st), Hv. reflexivity.
Qed.

(** A successful enroll shows one alert and refreshes the course, without
    inspecting the response body.  Whether the refreshed data arrive
    before or after the alert is acknowledged, once it is acknowledged the
    page is the redirect to the enrolled section. *)
Theorem enroll_success_redirects (moment : string -> number) (window : scope)
        (s : SectionData) (body : value) (st : State)
        (before after : list update) :
  Forall (fun u => forall i, u <> SectionViewed i) before ->
  Forall (fun u => forall i, u <> SectionViewed i) after ->
  exists message,
    handleClick_then moment_display s true body
    = Normal [AlertModal message (Some (id s)); Update]
    /\ render moment_time moment_display
              (apply_updates moment window
                 (acknowledge (AlertModal message (Some (id s)))
                    (apply_updates moment window st before))
                 after)
       = Redirect ("/sections/" ++ number_to_string (id s)).
Proof.
  intros Hb Ha. eexists. split; [reflexivity |].
  unfold render. rewrite (viewSection_kept moment window after Ha). reflexivity.
Qed.
End Page.

(** The click handler's continuation throws exactly when the response is a
    rejection whose body decodes to [null] (or is [undefined]); on every
    other response it produces any console lines first, then exactly one
    alert, then exactly one refresh of the course, and acknowledging the
    alert of a rejection leaves the state as it is. *)
Theorem handleClick_outcomes (moment_display : string -> string)
        (s : SectionData) (ok : bool) (body : value) :
  ((exists e, handleClick_then moment_display s ok body = Throw e)
   <-> ok = false /\ (body = VNull \/ body = VUndefined))
  /\ (forall effects,
         handleClick_then moment_display s ok body = Normal effects ->
         exists logs message onClose,
           effects = (logs ++ [AlertModal message onClose; Update])%list
           /\ Forall (fun e => exists v, e = ConsoleLog v) logs
           /\ (if ok then logs = [] /\ onClose = Some (id s)
               else onClose = None
                    /\ forall st, acknowledge (AlertModal message onClose) st = st)).
Proof.
  destruct ok.
  - split.
    + split; [intros [e He]; discriminate He | intros [H _]; discriminate H].
    + intros effects E. simpl in E. injection E as <-.
      exists []. do 2 eexists. split; [reflexivity |]. split; [constructor | split; reflexivity].
  - assert (R : (body = VNull \/ body = VUndefined) /\ (exists e, rejection body = Throw e)
                \/ (body <> VNull /\ body <> VUndefined)
                   /\ exists message logs,
                        rejection body = Normal (message, logs)
                        /\ Forall (fun e => exists v, e = ConsoleLog v) logs).
    { destruct body as [| | b | n | str | props | elems | what];
        try (left; split; [auto | eexists; reflexivity]);
        right; (split; [split; discriminate |]);
        unfold rejection; simpl;
        try (do 2 eexists; split; [reflexivity | repeat constructor; eexists; reflexivity]).
      destruct (assoc "shortCode" props) as [code |]; simpl.
      - destruct (strict_equals code (VStr "already_enrolled"));
          [do 2 eexists; split; [reflexivity | constructor] |].
        destruct (strict_equals code (VStr "course_closed"));
          [do 2 eexists; split; [reflexivity | constructor] |].
        destruct (strict_equals code (VStr "section_full"));
          [do 2 eexists; split; [reflexivity | constructor] |].
        destruct (assoc "message" props); simpl;
          do 2 eexists; (split; [reflexivity | repeat constructor; eexists; reflexivity]).
      - destruct (assoc "message" props); simpl;
          do 2 eexists; (split; [reflexivity | repeat constructor; eexists; reflexivity]). }
    unfold handleClick_then. simpl negb. cbv iota.
    destruct R as [[Hb [e He]] | [[Hn Hu] (message & logs & Hr & Hl)]].
    + rewrite He. simpl. split.
      * split; [intros _; split; [reflexivity | exact Hb] | intros _; eexists; reflexivity].
      * intros effects E. discriminate E.
    + rewrite Hr. simpl. split.
      * split; [intros [e He]; discriminate He | intros [_ [H | H]]; contradiction].
      * intros effects E. injection E as <-.
        exists logs, message, None. split; [reflexivity |].
        split; [exact Hl |]. split; reflexivity.
Qed.

(** The window is closed for every [now] when a bound of the window, or
    [now] itself, is an invalid date, and when the end is not at least two
    milliseconds after the start. *)
Theorem window_never_open (moment : string -> number) (now : number) (st : State) :
  moment (enrollmentStart (course st)) = NaN
  \/ moment (enrollmentEnd (course st)) = NaN
  \/ now = NaN
  \/ (exists s e,
         moment (enrollmentStart (course st)) = Fin s
         /\ moment (enrollmentEnd (course st)) = Fin e
         /\ (e <= s + 1)%Z) ->
  enrollmentOpen (updateCourse_window moment now st) = false.
Proof.
  unfold updateCourse_window, set_enrollmentOpen, window_open, gt, lt. simpl.
  intros [H | [H | [H | (s & e & Hs & He & Hle)]]].
  - rewrite H. destruct now; reflexivity.
  - rewrite H. destruct now, (moment (enrollmentStart (course st)));
      simpl; rewrite ?andb_false_r; reflexivity.
  - rewrite H. destruct (moment (enrollmentStart (course st))); reflexivity.
  - rewrite Hs, He. destruct now as [| n]; [reflexivity |].
    destruct (Z.ltb_spec s n), (Z.ltb_spec n e); try reflexivity. lia.
Qed.

(** The capacity test is an equality: a section that holds more students
    than its capacity shows a negative number of spots and its button is
    not disabled for a student who may enroll. *)
Theorem overfull_section_stays_enabled (s : SectionData) :
  (capacity s < enrolledStudents s)%Z ->
  disabled false true s = false
  /\ (available s < 0)%Z
  /\ pluralized_spot s = "spots".
Proof.
  intros H. unfold disabled, pluralized_spot, available. simpl.
  destruct (Z.eqb_spec (capacity s - enrolledStudents s) 0); [lia |].
  destruct (Z.eqb_spec (capacity s - enrolledStudents s) 1); [lia |].
  split; [reflexivity |]. split; [lia | reflexivity].
Qed.

(** After the sections are fetched the state holds one array per weekday
    text that occurs: the property of a day is that day's sections in
    fetched order, a day without sections has no property, and nothing
    else of the state changes. *)
Theorem sections_by_day (fetched : list SectionData) (st : State) :
  (forall day,
      assoc day (sections (sections_then fetched st))
      = match on_day day fetched with
        | [] => None
        | group => Some group
        end)
  /\ NoDup (map fst (sections (sections_then fetched st)))
  /\ sections_then fetched st = set_sections (sections (sections_then fetched st)) st.
Proof.
  split; [| split].
  - intros day. unfold sections_then, on_day, day_of. simpl.
    apply assoc_groupBy.
  - apply NoDup_groupBy.
  - reflexivity.
Qed.

(** Sample inputs. *)
Lemma every_section_listed_once_sample :
  exists label enrolled_alert not_open_alert headers days,
    render sample_clock (fun t => t) (sections_then sample_sections (constructor cs61a))
    = Page label enrolled_alert not_open_alert headers days
    /\ headers = map fst days
    /\ Permutation (map view_section (flat_map snd days)) (map id sample_sections).
Proof.
  apply (every_section_listed_once sample_clock (fun t => t) sample_sections
           (constructor cs61a)).
  reflexivity.
Defined.

Lemma banner_disables_every_button_sample :
  exists label headers days,
    render sample_clock (fun t => t) (sections_then sample_sections (constructor cs61a))
    = Page label false true headers days
    /\ (false = true \/ true = true)
    /\ Forall (fun v => view_disabled v = true) (flat_map snd days).
Proof.
  apply (banner_disables_every_button sample_clock (fun t => t)
           (sections_then sample_sections (constructor cs61a))).
  - reflexivity.
  - right. reflexivity.
Defined.

Lemma redirect_is_sticky_sample :
  render sample_clock (fun t => t)
         (apply_updates sample_clock page_globals
            (set_viewSection (Some 12%Z) (constructor cs61a))
            [SectionsFetched sample_sections; WindowEvaluated (Fin 10);
             CourseChanged cs61a])
  = Redirect "/sections/12".
Proof.
  apply (redirect_is_sticky sample_clock (fun t => t) sample_clock page_globals
           (set_viewSection (Some 12%Z) (constructor cs61a)) 12%Z).
  - reflexivity.
  - repeat (apply Forall_cons; [intros i; discriminate |]). apply Forall_nil.
Defined.

Lemma enroll_success_redirects_sample :
  exists message,
    handleClick_then (fun t => t) open_section true VNull
    = Normal [AlertModal message (Some (id open_section)); Update]
    /\ render sample_clock (fun t => t)
              (apply_updates sample_clock page_globals
                 (acknowledge (AlertModal message (Some (id open_section)))
                    (apply_updates sample_clock page_globals (constructor cs61a)
                       [SectionsFetched sample_sections]))
                 [ProfilesFetched enrolled_profiles])
       = Redirect ("/sections/" ++ number_to_string (id open_section)).
Proof.
  apply (enroll_success_redirects sample_clock (fun t => t) sample_clock page_globals
           open_section VNull (constructor cs61a)
           [SectionsFetched sample_sections] [ProfilesFetched enrolled_profiles]).
  - repeat (apply Forall_cons; [intros i; discriminate |]). apply Forall_nil.
  - repeat (apply Forall_cons; [intros i; discriminate |]). apply Forall_nil.
Defined.

Lemma window_never_open_sample :
  enrollmentOpen (updateCourse_window sample_clock (Fin 5) (constructor cs61a)) = false.
Proof.
  apply (window_never_open sample_clock (Fin 5) (constructor cs61a)).
  left. reflexivity.
Defined.

Lemma overfull_section_stays_enabled_sample :
  disabled false true (sample_overfull) = false
  /\ (available sample_overfull < 0)%Z
  /\ pluralized_spot sample_overfull = "spots".
Proof.
  apply (overfull_section_stays_enabled sample_overfull). simpl. lia.
Defined.

Lemma second_render_keeps_order_sample :
  Forall (fun item => Day_sections sample_clock (snd item) = snd item)
         (sections_after_render sample_clock
            (sections_then sample_sections (constructor cs61a))).
Proof.
  apply (DayFacts.second_render_keeps_order sample_clock
           (sections_then sample_sections (constructor cs61a))).
  - reflexivity.
  - simpl. repeat (apply Forall_cons;
                   [simpl; repeat (apply Forall_cons; [eexists; reflexivity |]);
                    apply Forall_nil |]).
    apply Forall_nil.
Defined.

End CourseMore.

(** ** The mentor's attendance and roster views *)

Module MentorMore.
Import JS MentorSection ListTerms MentorTerms JSFacts CollectionFacts ParseDateFacts.

Lemma split_without_separator (sep : ascii) (s : string) :
  occurs sep s = false -> split sep s = [s].
Proof.
  induction s as [| c r IH]; simpl; intros H; [reflexivity |].
  apply orb_false_iff in H. destruct H as [Hc Hr].
  rewrite Hc, (IH Hr). reflexivity.
Qed.

Lemma split_with_separator (sep : ascii) (s : string) :
  occurs sep s = true -> exists a b rest, split sep s = a :: b :: rest.
Proof.
  induction s as [| c r IH]; simpl; intros H; [discriminate H |].
  destruct (Ascii.eqb c sep) eqn:Ec.
  - pose proof (split_not_nil sep r) as Hne.
    destruct (split sep r) as [| b rest]; [congruence |].
    exists EmptyString, b, rest. reflexivity.
  - simpl in H. destruct (IH H) as (a & b & rest & E).
    rewrite E. exists (String c a), b, rest. reflexivity.
Qed.

(** The date formatter throws exactly on the texts without a full stop;
    on every other text it returns a label. *)
Theorem parseDate_throws_iff (dateString : string) :
  ((exists e, parseDate dateString = Throw e) <-> occurs "." dateString = false)
  /\ ((exists label, parseDate dateString = Normal label)
      <-> occurs "." dateString = true).
Proof.
  unfold parseDate.
  destruct (occurs "." dateString) eqn:E.
  - destruct (split_with_separator "." dateString E) as (a & b & rest & Hs).
    rewrite Hs. simpl. split; split.
    + intros [e He]. discriminate He.
    + discriminate.
    + reflexivity.
    + intros _. eexists. reflexivity.
  - rewrite (split_without_separator "." dateString E). simpl. split; split.
    + reflexivity.
    + intros _. eexists. reflexivity.
    + intros [l Hl]. discriminate Hl.
    + discriminate.
Qed.



Section AttendanceTable.
Variable ATTENDANCE_LABELS : object (string * string).




(** A clicked week that the loaded grouping does not have makes the render
    throw; while the data is not loaded the render shows the loading line
    whatever is selected. *)
Theorem stale_selection (k : string) (attendances : object (list Attendance)) :
  k <> EmptyString ->
  assoc k attendances = None ->
  (exists e, render ATTENDANCE_LABELS (Some k) true attendances = Throw e)
  /\ (forall state_selectedWeek,
         render ATTENDANCE_LABELS state_selectedWeek false attendances
         = Normal LoadingAttendances).
Proof.
  intros Hk Hnone. split; [| reflexivity].
  assert (Et : String.eqb k EmptyString = false) by (apply String.eqb_neq; exact Hk).
  unfold render, selectedWeek. simpl truthy. rewrite Et. simpl negb. cbv iota.
  match goal with
  | |- context [bind ?m _] => destruct m as [tabs | e]
  end.
  - simpl. rewrite Et. simpl. rewrite Hnone. eexists. reflexivity.
  - eexists. reflexivity.
Qed.
End AttendanceTable.


Lemma stale_selection_sample :
  (exists e, render sample_labels (Some "Feb. 3, 2020") true
                    (group_attendances sample_flat) = Throw e)
  /\ (forall state_selectedWeek,
         render sample_labels state_selectedWeek false (group_attendances sample_flat)
         = Normal LoadingAttendances).
Proof.
  apply (stale_selection sample_labels "Feb. 3, 2020" (group_attendances sample_flat)).
  - discriminate.
  - reflexivity.
Defined.

(** *** The fetched payload *)

Lemma flat_attendances_records (data : list StudentData) :
  map record (flat_attendances data) = flat_map attendances data.
Proof.
  unfold flat_attendances.
  induction data as [| s r IH]; simpl; [reflexivity |].
  rewrite map_app, map_map, IH. simpl. rewrite map_id. reflexivity.
Qed.

(** Nothing of the payload is lost or invented by the grouping: the
    cohorts together hold exactly the attendance records of all students,
    every record sits in the cohort of its own week and carries the name
    and id of the student it was listed under, and the roster lists the
    students in payload order. *)
Theorem cohorts_hold_every_record (data : list StudentData) :
  Permutation (map record (flat_map snd (st_attendances (fetched data))))
              (flat_map attendances data)
  /\ (forall k cohort a,
         In (k, cohort) (st_attendances (fetched data)) -> In a cohort ->
         weekStart (record a) = k
         /\ exists s, In s data /\ In (record a) (attendances s)
                      /\ student a = {| ref_name := name s; ref_id := id s |})
  /\ map s_id (st_students (fetched data)) = map id data
  /\ map s_email (st_students (fetched data)) = map email data
  /\ st_loaded (fetched data) = true.
Proof.
  split; [| split; [| split; [| split]]].
  - simpl. unfold group_attendances.
    rewrite (members_groupBy (fun a => weekStart (record a))
                             (rev (flat_attendances data))).
    rewrite <- Permutation_rev, flat_attendances_records. reflexivity.
  - simpl. unfold group_attendances. intros k cohort a Hin Ha.
    apply in_groupBy in Hin. destruct Hin as [-> _].
    apply filter_In in Ha. destruct Ha as [Ha Hk].
    split; [apply String.eqb_eq; exact Hk |].
    apply in_rev in Ha. unfold flat_attendances in Ha.
    apply in_flat_map in Ha. destruct Ha as (s & Hs & Ha).
    apply in_map_iff in Ha. destruct Ha as (r & <- & Hr).
    exists s. repeat split; assumption.
  - simpl. rewrite map_map. reflexivity.
  - simpl. rewrite map_map. reflexivity.
  - reflexivity.
Qed.

(** *** The roster *)

Lemma split_join (sep : ascii) (l : list string) :
  l <> [] ->
  Forall (fun x => occurs sep x = false) l ->
  split sep (join (String sep EmptyString) l) = l.
Proof.
  intros Hne H. induction H as [| x r Hx Hr IH]; [congruence |].
  destruct r as [| y r'].
  - simpl. apply split_without_separator, Hx.
  - change (join (String sep EmptyString) (x :: y :: r'))
      with (x ++ String sep (join (String sep EmptyString) (y :: r'))).
    rewrite (split_prefix sep x _ Hx), split_at_separator.
    rewrite IH by discriminate. simpl. rewrite append_nil_r. reflexivity.
Qed.

(** The text put on the clipboard lists the emails in roster order,
    separated by single spaces: as long as no email contains a space,
    splitting the text at the spaces gives the emails back.  For an empty
    roster the text is empty. *)
Theorem copied_emails_round_trip (students : list Student) :
  students <> [] ->
  Forall (fun s => occurs " " (s_email s) = false) students ->
  split " " (copied_emails students) = map s_email students
  /\ copied_emails [] = EmptyString.
Proof.
  intros Hne H. split; [| reflexivity].
  unfold copied_emails. apply split_join.
  - destruct students; [congruence | discriminate].
  - apply Forall_forall. intros x Hx. apply in_map_iff in Hx.
    destruct Hx as (s & <- & Hs). rewrite Forall_forall in H. apply H, Hs.
Qed.

Lemma copied_emails_round_trip_sample :
  split " " (copied_emails (st_students (fetched sample_data)))
  = map s_email (st_students (fetched sample_data))
  /\ copied_emails [] = EmptyString.
Proof.
  apply (copied_emails_round_trip (st_students (fetched sample_data))).
  - discriminate.
  - simpl. repeat (apply Forall_cons; [reflexivity |]). apply Forall_nil.
Defined.

End MentorMore.

(** ** The student's section views *)

Module StudentMore.
Import JS StudentSection DropTerms CollectionFacts DropFacts.

Lemma mapM_throws_iff {A B : Type} (f : A -> completion B) (l : list A) :
  (exists e, mapM f l = Throw e) <-> Exists (fun x => exists e, f x = Throw e) l.
Proof.
  split.
  - induction l as [| x r IH]; simpl; intros [e He]; [discriminate He |].
    destruct (f x) as [y | e'] eqn:Ex; [| left; exists e'; exact Ex].
    right. apply IH. simpl in He.
    destruct (mapM f r) as [ys | e'']; [discriminate He | exists e''; reflexivity].
  - intros H. apply Exists_exists in H. destruct H as (x & Hin & Hx).
    apply (mapM_throws f l x Hin Hx).
Qed.

Section AttendanceTable.
Variable ATTENDANCE_LABELS : object (string * string).

(** The student's attendance table renders nothing until the records are
    loaded.  Once loaded it throws exactly when some record has a presence
    code without a label; otherwise it lists one row per record, in the
    order received, each with the date of its record and the label and
    colour of its presence code. *)
Theorem student_attendance_table (attendances : list StudentAttendance) :
  StudentSectionAttendance ATTENDANCE_LABELS attendance_initial = Normal None
  /\ ((exists e, StudentSectionAttendance ATTENDANCE_LABELS
                   (attendance_fetched attendances) = Throw e)
      <-> Exists (fun a => assoc (sa_presence a) ATTENDANCE_LABELS = None) attendances)
  /\ (forall shown,
         StudentSectionAttendance ATTENDANCE_LABELS (attendance_fetched attendances)
         = Normal shown ->
         exists rows,
           shown = Some rows
           /\ map ar_date rows = map sa_date attendances
           /\ Forall2 (fun a r =>
                         assoc (sa_presence a) ATTENDANCE_LABELS
                         = Some (ar_label r,
                                 match assoc (sa_presence a) ATTENDANCE_LABELS with
                                 | Some entry => snd entry
                                 | None => EmptyString
                                 end)
                         /\ ar_key r = sa_date a)
                      attendances rows).
Proof.
  split; [reflexivity |].
  unfold StudentSectionAttendance, attendance_fetched. simpl.
  split.
  - transitivity (exists e, mapM (attendance_row ATTENDANCE_LABELS) attendances = Throw e).
    + split; intros [e He].
      * destruct (mapM (attendance_row ATTENDANCE_LABELS) attendances) as [rows | e'];
          [discriminate He | exists e'; reflexivity].
      * rewrite He. exists e. reflexivity.
    + rewrite mapM_throws_iff. split; intros H; apply Exists_exists in H;
        destruct H as (a & Hin & Ha); apply Exists_exists; exists a;
        (split; [exact Hin |]); unfold attendance_row in *.
      * destruct (assoc (sa_presence a) ATTENDANCE_LABELS); [| reflexivity].
        destruct Ha as [e He]. discriminate He.
      * rewrite Ha. eexists. reflexivity.
  - intros shown E.
    destruct (mapM (attendance_row ATTENDANCE_LABELS) attendances) as [rows | e] eqn:Em;
      [| discriminate E].
    simpl in E. injection E as <-. exists rows. split; [reflexivity |].
    apply mapM_inv in Em.
    assert (Hrow : forall a r,
               attendance_row ATTENDANCE_LABELS a = Normal r ->
               ar_date r = sa_date a
               /\ ar_key r = sa_date a
               /\ assoc (sa_presence a) ATTENDANCE_LABELS
                  = Some (ar_label r,
                          match assoc (sa_presence a) ATTENDANCE_LABELS with
                          | Some entry => snd entry
                          | None => EmptyString
                          end)).
    { intros a r. unfold attendance_row.
      destruct (assoc (sa_presence a) ATTENDANCE_LABELS) as [[label suffix] |];
        [| discriminate].
      intros Er. injection Er as <-. repeat split. }
    split.
    + clear - Em Hrow. induction Em as [| a r l rs Har _ IH]; simpl; [reflexivity |].
      rewrite IH. destruct (Hrow a r Har) as [-> _]. reflexivity.
    + clear - Em Hrow. induction Em as [| a r l rs Har _ IH]; constructor; [| exact IH].
      destruct (Hrow a r Har) as (_ & Hk & Hl). split; assumption.
Qed.
End AttendanceTable.

(** *** More on the drop workflow *)

Section DropCalls.
Variable profileId : Z.

Lemma reachable_invariant (P : World -> Prop) :
  P mount ->
  (forall w e w', P w -> step profileId w e = Some w' -> P w') ->
  forall w, reachable profileId w -> P w.
Proof.
  intros Hm Hstep w [es Hes]. revert Hes. generalize mount, Hm.
  induction es as [| e r IH]; simpl; intros w0 H0 Hs.
  - injection Hs as <-. exact H0.
  - destruct (step profileId w0 e) as [w1 |] eqn:E; [| discriminate Hs].
    apply (IH w1); [apply (Hstep w0 e w1 H0 E) | exact Hs].
Qed.

(** Whatever the user clicks and however the calls settle, the workflow
    only ever issues [PATCH students/{profileId}/drop], and never more
    settlements are outstanding than calls were issued. *)
Theorem only_drop_calls_issued (w : World) :
  reachable profileId w ->
  Forall (fun r => r = drop_request profileId) (issued w)
  /\ pending w <= List.length (issued w).
Proof.
  revert w.
  apply (reachable_invariant
           (fun w => Forall (fun r => r = drop_request profileId) (issued w)
                     /\ pending w <= List.length (issued w))).
  - split; [constructor | simpl; lia].
  - intros w0 e w1 [Hall Hp] Hstep. apply step_stage_change in Hstep.
    destruct e as [[| | i |] | |].
    + destruct Hstep as (_ & _ & -> & ->). split; assumption.
    + destruct Hstep as (_ & _ & -> & ->). split; assumption.
    + destruct Hstep.
    + destruct Hstep as (_ & _ & -> & ->). split.
      * apply Forall_app. split; [exact Hall | repeat constructor].
      * rewrite List.length_app. simpl. lia.
    + destruct Hstep as (_ & -> & Hn). split; [exact Hall | lia].
    + destruct Hstep as (_ & -> & Hn). split; [exact Hall | lia].
Qed.

(** Nothing guards the confirm button while a call is in flight: each of
    [n] clicks on it issues one more drop call, and the modal stays
    open. *)
Theorem every_confirm_click_issues_a_call (n : nat) :
  forall w,
    at_stage CONFIRM w ->
    steps profileId w (repeat (Click ConfirmButton) n)
    = Some {| component := component w;
              issued := (issued w ++ repeat (drop_request profileId) n)%list;
              pending := pending w + n |}.
Proof.
  unfold at_stage.
  induction n as [| n IH]; intros w Hs; simpl.
  - rewrite app_nil_r, Nat.add_0_r. destruct w. reflexivity.
  - destruct w as [[s] calls p]. simpl in Hs. subst s. simpl.
    rewrite (IH (performDrop profileId
                   {| component := {| stage := CONFIRM |}; issued := calls;
                      pending := p |})) by reflexivity.
    simpl. rewrite <- app_assoc, Nat.add_succ_r. reflexivity.
Qed.
End DropCalls.

Lemma only_drop_calls_issued_sample :
  Forall (fun r => r = drop_request 42%Z)
         (issued {| component := {| stage := DROPPED |};
                    issued := [drop_request 42%Z; drop_request 42%Z]; pending := 1 |})
  /\ 1 <= 2.
Proof.
  apply (only_drop_calls_issued 42%Z
           {| component := {| stage := DROPPED |};
              issued := [drop_request 42%Z; drop_request 42%Z]; pending := 1 |}).
  exists [Click DropButton; Click ConfirmButton; Click ConfirmButton; Fulfilled].
  reflexivity.
Defined.

Lemma every_confirm_click_issues_a_call_sample :
  steps 42%Z confirming [Click ConfirmButton; Click ConfirmButton]
  = Some {| component := {| stage := CONFIRM |};
            issued := [drop_request 42%Z; drop_request 42%Z];
            pending := 2 |}.
Proof.
  apply (every_confirm_click_issues_a_call 42%Z 2 confirming). reflexivity.
Defined.

End StudentMore.

(** ** The weekly cohorts and the default tab *)

Module CohortFacts.
Import JS MentorSection ListTerms MentorTerms JSFacts CollectionFacts.
Import ParseDateFacts AttendanceFacts MentorMore.

(** *** The whole object that [groupBy] builds *)

Section GroupOrder.
Context {A : Type}.
Variable f : A -> string.

Lemma keys_push_group_list (k : string) (x : A) (o : object (list A)) :
  map fst (push_group k x o)
  = if existsb (String.eqb k) (map fst o) then map fst o
    else (map fst o ++ [k])%list.
Proof.
  induction o as [| [k0 xs] r IH]; simpl; [reflexivity |].
  destruct (String.eqb k k0); simpl; [reflexivity |].
  rewrite IH. destruct (existsb (String.eqb k) (map fst r)); reflexivity.
Qed.

Lemma keys_groupBy_from_list (l : list A) :
  forall o,
    map fst (groupBy_from f o l)
    = (map fst o ++ unseen (map fst o) (map f l))%list.
Proof.
  induction l as [| x r IH]; intros o; simpl.
  - rewrite app_nil_r. reflexivity.
  - rewrite IH, keys_push_group_list.
    destruct (existsb (String.eqb (f x)) (map fst o)); [reflexivity |].
    rewrite <- app_assoc. reflexivity.
Qed.

(** The properties are created in order of first occurrence of the keys. *)
Lemma keys_groupBy_distinct (l : list A) :
  map fst (groupBy f l) = distinct (map f l).
Proof. unfold groupBy, distinct. rewrite keys_groupBy_from_list. reflexivity. Qed.
End GroupOrder.

Lemma object_eq_by_lookup {V : Type} (o1 : object V) :
  forall o2,
    map fst o1 = map fst o2 ->
    NoDup (map fst o1) ->
    (forall k, In k (map fst o1) -> assoc k o1 = assoc k o2) ->
    o1 = o2.
Proof.
  induction o1 as [| [k1 v1] r1 IH]; intros [| [k2 v2] r2] Hk Hnd Hl;
    simpl in Hk; try discriminate; [reflexivity |].
  injection Hk as -> Hr. inversion Hnd as [| ? ? Hnotin Hnd']; subst.
  pose proof (Hl k2 (or_introl eq_refl)) as E0. simpl in E0.
  rewrite String.eqb_refl in E0. injection E0 as ->.
  f_equal. apply (IH r2 Hr Hnd'). intros k Hin.
  pose proof (Hl k (or_intror Hin)) as E. simpl in E.
  destruct (String.eqb_spec k k2) as [-> | _]; [contradiction | exact E].
Qed.

Lemma assoc_map_keys {V : Type} (g : string -> V) (ks : list string) (k : string) :
  In k ks -> assoc k (map (fun w => (w, g w)) ks) = Some (g k).
Proof.
  induction ks as [| w r IH]; simpl; intros Hin; [destruct Hin |].
  destruct (String.eqb_spec k w) as [-> | Hne]; [reflexivity |].
  destruct Hin as [E | Hin]; [congruence | apply IH, Hin].
Qed.

(** [groupBy] lists the distinct keys in order of first occurrence, each
    with the elements of that key in collection order. *)
Lemma groupBy_characterised {A : Type} (f : A -> string) (l : list A) :
  groupBy f l = map (fun k => (k, filter (has_key f k) l)) (distinct (map f l)).
Proof.
  apply object_eq_by_lookup.
  - rewrite map_map. simpl. rewrite map_id. apply keys_groupBy_distinct.
  - apply NoDup_groupBy.
  - intros k Hin.
    rewrite (assoc_map_keys (fun k => filter (has_key f k) l))
      by (rewrite <- keys_groupBy_distinct; exact Hin).
    apply assoc_in_keys in Hin. rewrite assoc_groupBy in *.
    destruct (filter (has_key f k) l); [congruence | reflexivity].
Qed.

Local Abbreviation week_of := (fun a : Attendance => weekStart (record a)).

(** C4.  The weekly cohorts are the grouping of the whole flat list in
    reverse: the result lists the distinct weeks in the order in which the
    reversed list first meets them, each with that week's records in
    reverse input order, so the first cohort is the week of the last input
    record; a week without records has no cohort; for the input [a; b; c]
    with [a] and [c] in one week and [b] in another the result is that
    week with [c; a], then the other with [b], and for [a; b] in two weeks
    it is the week of [b] first; the empty input gives the empty mapping.
    This is the mapping that the fetch continuation stores, for the flat
    list of all students' records. *)
Theorem cohorts_reverse_input :
  (forall flat,
      group_attendances flat
      = map (fun w => (w, rev (of_week w flat)))
            (distinct (map week_of (rev flat))))
  /\ (forall flat w,
         assoc w (group_attendances flat)
         = match rev (of_week w flat) with
           | [] => None
           | cohort => Some cohort
           end)
  /\ (forall a b c,
         weekStart (record c) = weekStart (record a) ->
         weekStart (record b) <> weekStart (record a) ->
         group_attendances [a; b; c]
         = [ (weekStart (record a), [c; a]); (weekStart (record b), [b]) ])
  /\ (forall a b,
         weekStart (record b) <> weekStart (record a) ->
         group_attendances [a; b]
         = [ (weekStart (record b), [b]); (weekStart (record a), [a]) ])
  /\ group_attendances [] = []
  /\ (forall data,
         st_attendances (fetched data)
         = map (fun w => (w, rev (of_week w (flat_attendances data))))
               (distinct (map week_of (rev (flat_attendances data))))
         /\ map record (flat_attendances data) = flat_map attendances data).
Proof.
  assert (G : forall flat,
             group_attendances flat
             = map (fun w => (w, rev (of_week w flat)))
                   (distinct (map week_of (rev flat)))).
  { intros flat. unfold group_attendances. rewrite groupBy_characterised.
    apply map_ext. intros w. unfold of_week. rewrite filter_rev. reflexivity. }
  split; [exact G |]. split; [| split; [| split; [| split]]].
  - intros flat w. unfold group_attendances, of_week.
    rewrite assoc_groupBy, filter_rev. reflexivity.
  - intros a b c Hc Hb. unfold group_attendances, groupBy. simpl.
    rewrite Hc.
    destruct (String.eqb_spec (weekStart (record b)) (weekStart (record a)));
      [contradiction |].
    simpl. rewrite String.eqb_refl. reflexivity.
  - intros a b Hb. unfold group_attendances, groupBy. simpl.
    destruct (String.eqb_spec (weekStart (record a)) (weekStart (record b)));
      [congruence | reflexivity].
  - reflexivity.
  - intros data. split; [apply G | apply flat_attendances_records].
Qed.

Lemma cohorts_reverse_input_sample :
  group_attendances
    [ sample 1 "Jan. 6, 2020"; sample 2 "Jan. 13, 2020"; sample 3 "Jan. 6, 2020" ]
  = [ ("Jan. 6, 2020", [sample 3 "Jan. 6, 2020"; sample 1 "Jan. 6, 2020"]);
      ("Jan. 13, 2020", [sample 2 "Jan. 13, 2020"]) ].
Proof.
  destruct cohorts_reverse_input as (_ & _ & H & _).
  apply (H (sample 1 "Jan. 6, 2020") (sample 2 "Jan. 13, 2020")
           (sample 3 "Jan. 6, 2020")).
  - reflexivity.
  - discriminate.
Defined.

(** *** The default tab *)




Section DefaultTab.
Variable ATTENDANCE_LABELS : object (string * string).

End DefaultTab.


End CohortFacts.
